(** * Verification of [pkg/bugzilla/bugzilla.go]

    A shallow embedding of [getPRs] and [Verifier.VerifyBugs] together with
    the properties of the bug verification procedure.

    The two clients ([bugzilla.Client], [github.Client]) are Go interfaces
    whose implementations live outside the package.  They are embedded as
    type classes over an abstract world [W]: every call may change the world
    and returns a value or an error.  The program is written in a small
    monad that threads the world and records every call, with the response
    it received, in a trace. *)

From Stdlib Require Import ZArith String Ascii List DecimalString Lia.
From stdpp Require Import base gmap list strings.

(** ** Strings and formatting *)

(** The newline byte written [\n] in the Go format strings. *)
Definition nl : string := String "010"%char EmptyString.

(** [%d] applied to an [int]. No arithmetic is ever done on bug or pull
    request numbers, so they are kept as unbounded integers. *)
Definition Itoa (n : Z) : string := NilZero.string_of_int (Z.to_int n).

(** [strings.Split(s, sep)] for a one byte separator (the source only
    splits on "."): the pieces between the separators, in order; the empty
    string gives one empty piece. *)
Fixpoint Split (s : string) (sep : ascii) : list string :=
  match s with
  | EmptyString => [EmptyString]
  | String a s' =>
      if Ascii.eqb a sep then EmptyString :: Split s' sep
      else match Split s' sep with
           | [] => [String a EmptyString]
           | piece :: pieces => String a piece :: pieces
           end
  end.

(** ** Errors *)

(** A Go [error] value: either one handed back by a client (which
    [bugzilla.IsAccessDenied] may classify as an access denial) or one
    built by [fmt.Errorf]. *)
Inductive error : Type :=
| clientError (denied : bool) (msg : string)
| fmtError (msg : string).

(** [err.Error()], which is what [%v] and [%w] print. *)
Definition Error (err : error) : string :=
  match err with
  | clientError _ msg => msg
  | fmtError msg => msg
  end.

Definition IsAccessDenied (err : error) : bool :=
  match err with
  | clientError denied _ => denied
  | fmtError _ => false
  end.

(** The [(value, error)] return convention: on error the value is the
    zero value and is never inspected. *)
Inductive result (A : Type) : Type :=
| Ok (a : A)
| Err (err : error).
Arguments Ok {A} a.
Arguments Err {A} err.

Definition isOk {A : Type} (r : result A) : bool :=
  match r with Ok _ => true | Err _ => false end.

#[global] Instance error_eq_dec : EqDecision error.
Proof. solve_decision. Defined.

(** ** Data model *)

Module bugzilla.

Record User : Type := { Name : string }.

Record Bug : Type := {
  ID : Z;
  Status : string;
  TargetRelease : list string;
  QAContactDetail : option User
}.

(** [ExternalBug]: [URL] is the field reached as [extBug.Type.URL]. *)
Record ExternalBug : Type := {
  URL : string;
  Org : string;
  Repo : string;
  Num : Z
}.

Record Comment : Type := {
  Text : string;
  Creator : string
}.

Record CommentCreate : Type := {
  CommentCreate_ID : Z;
  CommentCreate_Comment : string;
  IsPrivate : bool
}.

(** [BugUpdate]: the source only ever sets [Status]. *)
Record BugUpdate : Type := { BugUpdate_Status : string }.

End bugzilla.

Module github.
Record Label : Type := { Name : string }.
End github.

Import bugzilla.

(** [pr] contains the org, repo, and pr number for a pr. *)
Record pr : Type := {
  org : string;
  repo : string;
  prNum : Z
}.

#[global] Instance User_eq_dec : EqDecision User.
Proof. solve_decision. Defined.
#[global] Instance Bug_eq_dec : EqDecision Bug.
Proof. solve_decision. Defined.
#[global] Instance ExternalBug_eq_dec : EqDecision ExternalBug.
Proof. solve_decision. Defined.
#[global] Instance Comment_eq_dec : EqDecision Comment.
Proof. solve_decision. Defined.
#[global] Instance CommentCreate_eq_dec : EqDecision CommentCreate.
Proof. solve_decision. Defined.
#[global] Instance BugUpdate_eq_dec : EqDecision BugUpdate.
Proof. solve_decision. Defined.
#[global] Instance Label_eq_dec : EqDecision github.Label.
Proof. solve_decision. Defined.
#[global] Instance pr_eq_dec : EqDecision pr.
Proof. solve_decision. Defined.
#[global] Instance result_eq_dec {A : Type} `{EqDecision A} : EqDecision (result A).
Proof. solve_decision. Defined.

(** ** Clients and calls *)

(** [bugzilla.Client], restricted to the methods the package calls. *)
Class BugzillaClient (W : Type) : Type := {
  GetBug : Z -> W -> W * result Bug;
  GetExternalBugPRsOnBug : Z -> W -> W * result (list ExternalBug);
  GetComments : Z -> W -> W * result (list Comment);
  CreateComment : CommentCreate -> W -> W * result Z;
  UpdateBug : Z -> BugUpdate -> W -> W * option error
}.

(** [github.Client], restricted to the method the package calls. *)
Class GithubClient (W : Type) : Type := {
  GetIssueLabels : string -> string -> Z -> W -> W * result (list github.Label)
}.

(** One entry of the trace: a client call with its arguments and the
    response it got. *)
Inductive event : Type :=
| EvGetBug (id : Z) (r : result Bug)
| EvGetExternalBugPRsOnBug (id : Z) (r : result (list ExternalBug))
| EvGetComments (id : Z) (r : result (list Comment))
| EvCreateComment (c : CommentCreate) (r : result Z)
| EvUpdateBug (id : Z) (u : BugUpdate) (r : option error)
| EvGetIssueLabels (p : pr) (r : result (list github.Label)).

#[global] Instance event_eq_dec : EqDecision event.
Proof. solve_decision. Defined.

(** A computation over the world [W]: final world, calls made, value. *)
Definition M (W A : Type) : Type := W -> W * list event * A.

Definition ret {W A : Type} (a : A) : M W A := fun w => (w, [], a).

Definition bind {W A B : Type} (m : M W A) (f : A -> M W B) : M W B :=
  fun w =>
    let '(w1, t1, a) := m w in
    let '(w2, t2, b) := f a w1 in
    (w2, t1 ++ t2, b).

Notation "x <- c1 ;; c2" := (bind c1 (fun x => c2))
  (at level 100, c1 at next level, right associativity).

(** A client call, recorded in the trace. *)
Definition call {W A : Type} (op : W -> W * A) (ev : A -> event) : M W A :=
  fun w => let '(w', r) := op w in (w', [ev r], r).

(** What the loop body leaves behind for one bug: either the bug was left
    alone ([continue] before a decision was taken), or the body reached
    line 108 and fixed the local variables [success] and [message]. *)
Inductive verdict : Type :=
| Skipped
| Decided (success : bool) (message : string).

(** The outcome of lines 60-75 for a fetched bug. *)
Inductive gate : Type :=
| NoTargetRelease
| MalformedTargetRelease (targetRelease : string)
| OtherRelease
| SameRelease.

(** ** Pure pieces of the loop bodies *)

(** Lines 96-102: does the label list carry "qe-approved"? *)
Fixpoint hasLabel (labels : list github.Label) : bool :=
  match labels with
  | [] => false
  | label :: labels' =>
      if String.eqb (github.Name label) "qe-approved" then true
      else hasLabel labels'
  end.

(** Lines 60-75: the target release of the bug against the release of the
    tag. *)
Definition targetReleaseGate (tagRelease : string) (bug : Bug) : gate :=
  match TargetRelease bug with
  | [] => NoTargetRelease
  | targetRelease0 :: _ =>
      if String.eqb targetRelease0 "---" then NoTargetRelease
      else
        match Split targetRelease0 "."%char with
        | major :: minor :: _ =>
            let bugRelease := major +:+ "." +:+ minor in
            if String.eqb bugRelease tagRelease then SameRelease
            else OtherRelease
        | _ => MalformedTargetRelease targetRelease0
        end
  end.

(** Lines 110-112: one line per unlabeled pull request. *)
Fixpoint appendPRLines (message : string) (unlabeledPRs : list pr) : string :=
  match unlabeledPRs with
  | [] => message
  | extPR :: rest =>
      appendPRLines
        (message +:+ nl +:+ "- PR " +:+ org extPR +:+ "/" +:+ repo extPR
           +:+ "#" +:+ Itoa (prNum extPR) +:+ " not approved by QA contact")
        rest
  end.

(** Lines 113-115: one line per reason. *)
Fixpoint appendErrLines (message : string) (bugErrs : list error) : string :=
  match bugErrs with
  | [] => message
  | err :: rest => appendErrLines (message +:+ nl +:+ "- " +:+ Error err) rest
  end.

(** Lines 76-77 and 108-126: the local variables [success] and [message]
    once the message is composed. *)
Definition compose (tagName : string) (bug : Bug)
    (unlabeledPRs : list pr) (bugErrs : list error) : bool * string :=
  let message := "Bugfix included in accepted release " +:+ tagName in
  if (0 <? length unlabeledPRs) || (0 <? length bugErrs) then
    let message :=
      message +:+ nl
        +:+ "Bug will not be automatically moved to VERIFIED for the following reasons:" in
    let message := appendPRLines message unlabeledPRs in
    let message := appendErrLines message bugErrs in
    let message :=
      message +:+ nl +:+ nl +:+ "This bug must now be manually moved to VERIFIED" in
    let message :=
      match QAContactDetail bug with
      | Some qa => message +:+ " by " +:+ bugzilla.Name qa
      | None => message
      end in
    (false, message)
  else
    (true,
     message +:+ nl
       +:+ "All linked GitHub PRs have been approved by a QA contact; updating bug status to VERIFIED").

(** Line 135: is this comment the message, written by the robot? *)
Definition isOwnComment (message : string) (comment : Comment) : bool :=
  String.eqb (Text comment) message
  && (String.eqb (Creator comment) "openshift-bugzilla-robot"
      || String.eqb (Creator comment) "openshift-bugzilla-robot@redhat.com").

(** Lines 133-139. *)
Fixpoint alreadyCommented (message : string) (comments : list Comment) : bool :=
  match comments with
  | [] => false
  | comment :: comments' =>
      if isOwnComment message comment then true
      else alreadyCommented message comments'
  end.

(** Lines 175-184: the links of one bug hosted on GitHub are appended to
    the entry of the bug, which is created by the first of them. *)
Fixpoint appendPRs (bzID : Z) (extBugs : list ExternalBug)
    (bzPRs : gmap Z (list pr)) : gmap Z (list pr) :=
  match extBugs with
  | [] => bzPRs
  | extBug :: rest =>
      if String.eqb (URL extBug) "https://github.com/" then
        let p := {| org := Org extBug; repo := Repo extBug; prNum := Num extBug |} in
        match bzPRs !! bzID with
        | Some existingPRs => appendPRs bzID rest (<[bzID := existingPRs ++ [p]]> bzPRs)
        | None => appendPRs bzID rest (<[bzID := [p]]> bzPRs)
        end
      else appendPRs bzID rest bzPRs
  end.

(** ** The program *)

Section Verifier.

(** The world the two clients of the [Verifier] talk to. *)
Context {W : Type} `{bzClient : BugzillaClient W} `{ghClient : GithubClient W}.

(** [releasecontroller.SemverParseTolerant] and
    [releasecontroller.SemverToMajorMinor] belong to another package; the
    procedure is verified for any such pair. *)
Variable SemVer : Type.
Variable SemverParseTolerant : string -> result SemVer.
Variable SemverToMajorMinor : SemVer -> string.

(** Go leaves the order in which [range] visits a map unspecified: it is
    some enumeration of the entries of the map. *)
Variable rangeOrder : gmap Z (list pr) -> list (Z * list pr).

(** Lines 163-189, the loop of [getPRs]. The variable [foundPR] only
    feeds a log line and is left out. *)
Fixpoint getPRsLoop (input : list Z) (bzPRs : gmap Z (list pr))
    (errs : list error) : M W (gmap Z (list pr) * list error) :=
  match input with
  | [] => ret (bzPRs, errs)
  | bzID :: rest =>
      r <- call (GetExternalBugPRsOnBug bzID) (EvGetExternalBugPRsOnBug bzID) ;;
      match r with
      | Err err =>
          if IsAccessDenied err then getPRsLoop rest bzPRs errs
          else
            getPRsLoop rest bzPRs
              (errs ++ [fmtError ("Failed to get external bugs for bugzilla bug "
                                    +:+ Itoa bzID +:+ ": " +:+ Error err)])
      | Ok extBugs => getPRsLoop rest (appendPRs bzID extBugs bzPRs) errs
      end
  end.

(** [getPRs] identifies bugzilla bugs and the associated github PRs. *)
Definition getPRs (input : list Z) : M W (gmap Z (list pr) * list error) :=
  getPRsLoop input ∅ [].

(** Lines 89-106: the labels of every linked pull request. The three
    accumulators are [errs], [unlabeledPRs] and [bugErrs]. *)
Fixpoint checkLabels (extPRs : list pr) (errs : list error)
    (unlabeledPRs : list pr) (bugErrs : list error)
    : M W (list error * list pr * list error) :=
  match extPRs with
  | [] => ret (errs, unlabeledPRs, bugErrs)
  | extPR :: rest =>
      r <- call (GetIssueLabels (org extPR) (repo extPR) (prNum extPR))
                (EvGetIssueLabels extPR) ;;
      let '(labels, errs, bugErrs) :=
        match r with
        | Err err =>
            let newErr :=
              fmtError ("Unable to get labels for github pull " +:+ org extPR
                          +:+ "/" +:+ repo extPR +:+ "#" +:+ Itoa (prNum extPR)
                          +:+ ": " +:+ Error err) in
            ([], errs ++ [newErr], bugErrs ++ [newErr])
        | Ok labels => (labels, errs, bugErrs)
        end in
      if negb (hasLabel labels)
      then checkLabels rest errs (unlabeledPRs ++ [extPR]) bugErrs
      else checkLabels rest errs unlabeledPRs bugErrs
  end.

(** Lines 146-153: the status update, issued for a successful bug only. *)
Definition transition (success : bool) (bug : Bug) (errs : list error)
    : M W (list error) :=
  if success then
    let update := {| BugUpdate_Status := "VERIFIED" |} in
    r <- call (UpdateBug (ID bug) update) (EvUpdateBug (ID bug) update) ;;
    match r with
    | Some err =>
        ret (errs ++ [fmtError ("Failed to update status for bug "
                                  +:+ Itoa (ID bug) +:+ ": " +:+ Error err)])
    | None => ret errs
    end
  else ret errs.

(** Lines 108-153: compose the message, post it unless it is already
    there, update the status. *)
Definition conclude (tagName : string) (bugID : Z) (bug : Bug)
    (errs : list error) (unlabeledPRs : list pr) (bugErrs : list error)
    : M W (list error * verdict) :=
  let '(success, message) := compose tagName bug unlabeledPRs bugErrs in
  if negb (String.eqb message "") then
    r <- call (GetComments bugID) (EvGetComments bugID) ;;
    match r with
    | Err err =>
        ret (errs ++ [fmtError ("Failed to get comments on bug "
                                  +:+ Itoa (ID bug) +:+ ": " +:+ Error err)],
             Decided success message)
    | Ok comments =>
        errs <-
          (if negb (alreadyCommented message comments) then
             let create :=
               {| CommentCreate_ID := bugID;
                  CommentCreate_Comment := message;
                  IsPrivate := true |} in
             r <- call (CreateComment create) (EvCreateComment create) ;;
             match r with
             | Err err =>
                 ret (errs ++ [fmtError ("Failed to comment on bug "
                                           +:+ Itoa (ID bug) +:+ ": " +:+ Error err)])
             | Ok _ => ret errs
             end
           else ret errs) ;;
        errs <- transition success bug errs ;;
        ret (errs, Decided success message)
    end
  else
    errs <- transition success bug errs ;;
    ret (errs, Decided success message).

(** Lines 54-153, the body of the loop of [VerifyBugs] for one entry of
    the map. It gives back the error list and what was decided. *)
Definition verifyBug (tagName tagRelease : string) (bugID : Z)
    (extPRs : list pr) (errs : list error) : M W (list error * verdict) :=
  r <- call (GetBug bugID) (EvGetBug bugID) ;;
  match r with
  | Err err =>
      ret (errs ++ [fmtError ("Unable to get bugzilla number "
                                +:+ Itoa bugID +:+ ": " +:+ Error err)],
           Skipped)
  | Ok bug =>
      match targetReleaseGate tagRelease bug with
      | NoTargetRelease => ret (errs, Skipped)
      | MalformedTargetRelease targetRelease0 =>
          ret (errs ++ [fmtError ("Bug " +:+ Itoa (ID bug)
                                    +:+ ": length of target release `"
                                    +:+ targetRelease0
                                    +:+ "` after split by `.` is less than 2")],
               Skipped)
      | OtherRelease => ret (errs, Skipped)
      | SameRelease =>
          if negb (String.eqb (Status bug) "ON_QA") then
            if String.eqb (Status bug) "VERIFIED" then ret (errs, Skipped)
            else
              conclude tagName bugID bug errs []
                [fmtError "Bug is not in ON_QA status"]
          else
            x <- checkLabels extPRs errs [] [] ;;
            let '(errs, unlabeledPRs, bugErrs) := x in
            conclude tagName bugID bug errs unlabeledPRs bugErrs
      end
  end.

(** Lines 53-154: the loop over the entries of the map. *)
Fixpoint verifyLoop (tagName tagRelease : string)
    (entries : list (Z * list pr)) (errs : list error) : M W (list error) :=
  match entries with
  | [] => ret errs
  | (bugID, extPRs) :: rest =>
      x <- verifyBug tagName tagRelease bugID extPRs errs ;;
      verifyLoop tagName tagRelease rest (fst x)
  end.

(** [VerifyBugs] takes a list of bugzilla bug IDs and for each bug changes
    the bug status to VERIFIED if bug was reviewed and lgtm'd by the bug's
    QA Contact. *)
Definition VerifyBugs (bugs : list Z) (tagName : string) : M W (list error) :=
  match SemverParseTolerant tagName with
  | Err err =>
      ret [fmtError ("failed to parse tag `" +:+ tagName +:+ "` semver: "
                       +:+ Error err)]
  | Ok tagSemVer =>
      let tagRelease := SemverToMajorMinor tagSemVer in
      x <- getPRs bugs ;;
      let '(bzPRs, errs) := x in
      verifyLoop tagName tagRelease (rangeOrder bzPRs) errs
  end.

End Verifier.

(** ** Reading a trace *)

(** The label fetches of a trace, in order. *)
Fixpoint labelFetches (t : list event) : list (pr * result (list github.Label)) :=
  match t with
  | [] => []
  | EvGetIssueLabels p r :: t' => (p, r) :: labelFetches t'
  | _ :: t' => labelFetches t'
  end.

(** The responses to the link fetches made for bug [id], in order. *)
Fixpoint linkFetches (id : Z) (t : list event) : list (result (list ExternalBug)) :=
  match t with
  | [] => []
  | EvGetExternalBugPRsOnBug id' r :: t' =>
      if Z.eqb id' id then r :: linkFetches id t' else linkFetches id t'
  | _ :: t' => linkFetches id t'
  end.

(** The bugs whose links were fetched, in order. *)
Fixpoint linkFetchIDs (t : list event) : list Z :=
  match t with
  | [] => []
  | EvGetExternalBugPRsOnBug id _ :: t' => id :: linkFetchIDs t'
  | _ :: t' => linkFetchIDs t'
  end.

(** The bug fetches, in order. *)
Fixpoint bugFetches (t : list event) : list (Z * result Bug) :=
  match t with
  | [] => []
  | EvGetBug id r :: t' => (id, r) :: bugFetches t'
  | _ :: t' => bugFetches t'
  end.

(** The status updates issued, in order. *)
Fixpoint updates (t : list event) : list (Z * BugUpdate) :=
  match t with
  | [] => []
  | EvUpdateBug id u _ :: t' => (id, u) :: updates t'
  | _ :: t' => updates t'
  end.

(** The comments the program asked to create, in order. *)
Fixpoint creates (t : list event) : list CommentCreate :=
  match t with
  | [] => []
  | EvCreateComment c _ :: t' => c :: creates t'
  | _ :: t' => creates t'
  end.

(** The comments with text [message] that the tracker accepted for bug
    [id]. *)
Fixpoint posted (id : Z) (message : string) (t : list event) : list CommentCreate :=
  match t with
  | [] => []
  | EvCreateComment c (Ok _) :: t' =>
      if Z.eqb (CommentCreate_ID c) id && String.eqb (CommentCreate_Comment c) message
      then c :: posted id message t'
      else posted id message t'
  | _ :: t' => posted id message t'
  end.

(** The comment fetches, in order. *)
Fixpoint commentFetches (t : list event) : list (Z * result (list Comment)) :=
  match t with
  | [] => []
  | EvGetComments id r :: t' => (id, r) :: commentFetches t'
  | _ :: t' => commentFetches t'
  end.

(** A fetch that came back with an error. Calls that write never count. *)
Definition failedFetch (e : event) : bool :=
  match e with
  | EvGetBug _ r => negb (isOk r)
  | EvGetExternalBugPRsOnBug _ r => negb (isOk r)
  | EvGetComments _ r => negb (isOk r)
  | EvGetIssueLabels _ r => negb (isOk r)
  | EvCreateComment _ _ => false
  | EvUpdateBug _ _ _ => false
  end.

(** Does the fetched label list approve the pull request? A failed fetch
    yields no labels. *)
Definition approved (r : result (list github.Label)) : bool :=
  match r with
  | Ok labels => hasLabel labels
  | Err _ => false
  end.

(** The pull requests of the fetches that did not show the approval. *)
Definition unapproved (fetches : list (pr * result (list github.Label))) : list pr :=
  map fst (filter (fun f => negb (approved (snd f))) fetches).

(** The error built at line 92 for a failed label fetch. *)
Definition labelErr (extPR : pr) (err : error) : error :=
  fmtError ("Unable to get labels for github pull " +:+ org extPR
              +:+ "/" +:+ repo extPR +:+ "#" +:+ Itoa (prNum extPR)
              +:+ ": " +:+ Error err).

(** The errors of the failed label fetches, in order. *)
Fixpoint labelErrs (fetches : list (pr * result (list github.Label))) : list error :=
  match fetches with
  | [] => []
  | (p, Err err) :: fetches' => labelErr p err :: labelErrs fetches'
  | (_, Ok _) :: fetches' => labelErrs fetches'
  end.

(** The error built at line 170 for a failed link fetch. *)
Definition linkErr (bzID : Z) (err : error) : error :=
  fmtError ("Failed to get external bugs for bugzilla bug "
              +:+ Itoa bzID +:+ ": " +:+ Error err).

(** The errors of the failed link fetches of a trace that are not access
    denials, in order. *)
Fixpoint linkErrs (t : list event) : list error :=
  match t with
  | [] => []
  | EvGetExternalBugPRsOnBug id (Err err) :: t' =>
      if IsAccessDenied err then linkErrs t' else linkErr id err :: linkErrs t'
  | _ :: t' => linkErrs t'
  end.

(** The pull requests among the links of one response (lines 175-184). *)
Definition githubPRs (extBugs : list ExternalBug) : list pr :=
  map (fun extBug => {| org := Org extBug; repo := Repo extBug; prNum := Num extBug |})
      (filter (fun extBug => String.eqb (URL extBug) "https://github.com/") extBugs).

(** The pull requests of a list of responses, failed ones giving none. *)
Definition fetchedPRs (rs : list (result (list ExternalBug))) : list pr :=
  concat (map (fun r => match r with Ok extBugs => githubPRs extBugs | Err _ => [] end) rs).

(** The message lines, as strings of their own. *)
Definition prLine (extPR : pr) : string :=
  nl +:+ "- PR " +:+ org extPR +:+ "/" +:+ repo extPR
     +:+ "#" +:+ Itoa (prNum extPR) +:+ " not approved by QA contact".

Definition errLine (err : error) : string := nl +:+ "- " +:+ Error err.

Definition baseLine (tagName : string) : string :=
  "Bugfix included in accepted release " +:+ tagName.

Definition preamble : string :=
  nl +:+ "Bug will not be automatically moved to VERIFIED for the following reasons:".

Definition closingLine : string :=
  nl +:+ nl +:+ "This bug must now be manually moved to VERIFIED".

Definition successLine : string :=
  nl +:+ "All linked GitHub PRs have been approved by a QA contact; updating bug status to VERIFIED".

Definition qaSuffix (bug : Bug) : string :=
  match QAContactDetail bug with
  | Some qa => " by " +:+ bugzilla.Name qa
  | None => ""
  end.

(** Concatenation of a list of strings. *)
Fixpoint joinLines (lines : list string) : string :=
  match lines with
  | [] => ""
  | line :: lines' => line +:+ joinLines lines'
  end.

(** ** Shapes of traces *)

(** Events by kind. *)
Definition isLinkFetch (e : event) : bool :=
  match e with EvGetExternalBugPRsOnBug _ _ => true | _ => false end.

Definition isLabelFetch (e : event) : bool :=
  match e with EvGetIssueLabels _ _ => true | _ => false end.

(** No entry of the map is an empty list. *)
Definition noEmptyEntry (bzPRs : gmap Z (list pr)) : Prop :=
  forall id prs, bzPRs !! id = Some prs -> prs <> [].

(** The update sent at line 148. *)
Definition verifiedUpdate : BugUpdate := {| BugUpdate_Status := "VERIFIED" |}.

(** The comment sent at line 141. *)
Definition privateComment (bugID : Z) (message : string) : CommentCreate :=
  {| CommentCreate_ID := bugID; CommentCreate_Comment := message; IsPrivate := true |}.

(** The calls of lines 127-153, given the responses they receive. *)
Definition concludeTrace (bugID : Z) (bug : Bug) (success : bool) (message : string)
    (fetched : result (list Comment)) (created : result Z) (updated : option error)
    : list event :=
  EvGetComments bugID fetched ::
  match fetched with
  | Err _ => []
  | Ok comments =>
      (if alreadyCommented message comments then []
       else [EvCreateComment (privateComment bugID message) created])
      ++ (if success then [EvUpdateBug (ID bug) verifiedUpdate updated] else [])
  end.

(** The error built at line 86. *)
Definition notOnQA : error := fmtError "Bug is not in ON_QA status".

(** The calls made by the label loop, from what they fetched. *)
Definition labelCalls (fetches : list (pr * result (list github.Label))) : list event :=
  map (fun f => EvGetIssueLabels (fst f) (snd f)) fetches.

(** A trace of the body that reached the decision: the bug fetch, the
    label fetches, the calls of lines 127-153. *)
Definition decidedTrace (bugID : Z) (bug : Bug)
    (fetches : list (pr * result (list github.Label)))
    (success : bool) (message : string)
    (fetched : result (list Comment)) (created : result Z) (updated : option error)
    : list event :=
  EvGetBug bugID (Ok bug)
    :: labelCalls fetches
    ++ concludeTrace bugID bug success message fetched created updated.

(** One call of either client takes the world from [w] to [w']. *)
Definition clientStep {W : Type} `{BugzillaClient W} `{GithubClient W}
    (w w' : W) : Prop :=
  (exists id, fst (GetBug id w) = w') \/
  (exists id, fst (GetExternalBugPRsOnBug id w) = w') \/
  (exists id, fst (GetComments id w) = w') \/
  (exists c, fst (CreateComment c w) = w') \/
  (exists id u, fst (UpdateBug id u w) = w') \/
  (exists org repo num, fst (GetIssueLabels org repo num w) = w').

(** Every status update of the trace sets VERIFIED and comes after the
    fetch of the bug it is for, which showed the status ON_QA. *)
Definition updatesFollowFetch (t : list event) : Prop :=
  forall pre id u r post,
    t = pre ++ EvUpdateBug id u r :: post ->
    u = {| BugUpdate_Status := "VERIFIED" |} /\
    exists bugID bug,
      (bugID, Ok bug) ∈ bugFetches pre /\ ID bug = id /\ Status bug = "ON_QA".

(** A run from [w] to [w'] with trace [t] posts without repeating itself,
    for a reading [shows] of the comments the tracker holds: what the
    tracker already shows is not posted again and stays shown, at most one
    comment with a given text is accepted for a bug, and an accepted
    comment is shown afterwards. *)
Definition postsOnce {W : Type} (shows : W -> Z -> string -> Prop)
    (w : W) (t : list event) (w' : W) : Prop :=
  forall (id : Z) (message : string),
    (shows w id message -> posted id message t = [] /\ shows w' id message) /\
    length (posted id message t) <= 1 /\
    (posted id message t <> [] -> shows w' id message).

(** Every run of the computation posts without repeating itself. *)
Definition idempotent {W A : Type} (shows : W -> Z -> string -> Prop)
    (m : M W A) : Prop :=
  forall w w' t a, m w = (w', t, a) -> postsOnce shows w t w'.

(** ** Further readings of strings, records and traces *)

(** [strings.Join] for a one byte separator. *)
Fixpoint Join (pieces : list string) (sep : ascii) : string :=
  match pieces with
  | [] => ""
  | piece :: pieces' =>
      match pieces' with
      | [] => piece
      | _ :: _ => piece +:+ String sep (Join pieces' sep)
      end
  end.

(** Does the byte occur in the string? *)
Fixpoint containsByte (c : ascii) (s : string) : bool :=
  match s with
  | EmptyString => false
  | String a s' => Ascii.eqb a c || containsByte c s'
  end.

(** How often the byte occurs in the string. *)
Fixpoint countByte (c : ascii) (s : string) : nat :=
  match s with
  | EmptyString => 0
  | String a s' => (if Ascii.eqb a c then 1 else 0) + countByte c s'
  end.

(** The error built at line 56. *)
Definition bugFetchErr (bugID : Z) (err : error) : error :=
  fmtError ("Unable to get bugzilla number " +:+ Itoa bugID +:+ ": " +:+ Error err).

(** The error built at line 67. *)
Definition malformedErr (bug : Bug) (targetRelease0 : string) : error :=
  fmtError ("Bug " +:+ Itoa (ID bug) +:+ ": length of target release `"
              +:+ targetRelease0 +:+ "` after split by `.` is less than 2").

(** The error the release gate leaves in the list, if any. *)
Definition gateErrs (tagRelease : string) (bug : Bug) : list error :=
  match targetReleaseGate tagRelease bug with
  | MalformedTargetRelease targetRelease0 => [malformedErr bug targetRelease0]
  | _ => []
  end.

(** The calls after which the program appends an error to the list it
    returns: a failed call, except a link fetch refused with an access
    denial, and a fetched bug whose target release is malformed. *)
Definition recordsError (tagRelease : string) (e : event) : bool :=
  match e with
  | EvGetBug _ (Err _) => true
  | EvGetBug _ (Ok bug) =>
      match targetReleaseGate tagRelease bug with
      | MalformedTargetRelease _ => true
      | _ => false
      end
  | EvGetExternalBugPRsOnBug _ (Err err) => negb (IsAccessDenied err)
  | EvGetExternalBugPRsOnBug _ (Ok _) => false
  | EvGetComments _ r => negb (isOk r)
  | EvCreateComment _ r => negb (isOk r)
  | EvUpdateBug _ _ (Some _) => true
  | EvUpdateBug _ _ None => false
  | EvGetIssueLabels _ r => negb (isOk r)
  end.

(** How many calls of the trace leave an error. *)
Fixpoint errorCount (tagRelease : string) (t : list event) : nat :=
  match t with
  | [] => 0
  | e :: t' => (if recordsError tagRelease e then 1 else 0) + errorCount tagRelease t'
  end.

(** Every status update of the trace comes after the fetch of its bug,
    which showed ON_QA, and after at least one label fetch made since
    then, all of which showed the approval. *)
Definition updatesAreBacked (t : list event) : Prop :=
  forall pre id u r post,
    t = pre ++ EvUpdateBug id u r :: post ->
    exists before bugID bug since,
      pre = before ++ EvGetBug bugID (Ok bug) :: since /\
      ID bug = id /\ Status bug = "ON_QA" /\
      bugFetches since = [] /\
      labelFetches since <> [] /\
      forall p labels, (p, labels) ∈ labelFetches since -> approved labels = true.

(** The bugs a trace fetches, reads the comments of, or comments on. *)
Fixpoint touchedBugs (t : list event) : list Z :=
  match t with
  | [] => []
  | EvGetBug id _ :: t' => id :: touchedBugs t'
  | EvGetComments id _ :: t' => id :: touchedBugs t'
  | EvCreateComment c _ :: t' => CommentCreate_ID c :: touchedBugs t'
  | _ :: t' => touchedBugs t'
  end.

(** The calls of the body before the status update. *)
Definition beforeUpdate (bugID : Z) (bug : Bug)
    (fetches : list (pr * result (list github.Label))) (message : string)
    (comments : list Comment) (created : result Z) : list event :=
  EvGetBug bugID (Ok bug)
    :: labelCalls fetches
    ++ EvGetComments bugID (Ok comments)
    :: (if alreadyCommented message comments then []
        else [EvCreateComment (privateComment bugID message) created]).

(** ** An in-memory tracker and code host *)

Module Fake.

(** Modelled from the spec: the defect-tracker client and the code-host
    client of section 6 ([getBug], [getExternalBugLinks], [getComments],
    [createComment], [updateBugStatus], [getLabels]) are not part of the
    package. This world keeps bugs, links, comments and labels in memory;
    a posted comment is stored under the robot account, a status update
    rewrites the stored status, and the switches make a group of calls
    fail. *)
Record World : Type := {
  bugs : gmap Z Bug;
  links : gmap Z (result (list ExternalBug));
  comments : gmap Z (list Comment);
  labels : list (pr * list github.Label);
  commentsDown : bool;
  postingDown : bool;
  updatesDown : bool
}.

Definition notFound : error := clientError false "not found".
Definition unavailable : error := clientError false "service unavailable".

Definition getBug (id : Z) (w : World) : World * result Bug :=
  (w, match bugs w !! id with Some bug => Ok bug | None => Err notFound end).

Definition getExternalBugPRsOnBug (id : Z) (w : World)
    : World * result (list ExternalBug) :=
  (w, match links w !! id with Some r => r | None => Ok [] end).

Definition getComments (id : Z) (w : World) : World * result (list Comment) :=
  (w, if commentsDown w then Err unavailable
      else Ok (default [] (comments w !! id))).

Definition createComment (c : CommentCreate) (w : World) : World * result Z :=
  if postingDown w then (w, Err unavailable)
  else
    let old := default [] (comments w !! CommentCreate_ID c) in
    let new := {| Text := CommentCreate_Comment c; Creator := "openshift-bugzilla-robot" |} in
    ({| bugs := bugs w; links := links w;
        comments := <[CommentCreate_ID c := old ++ [new]]> (comments w);
        labels := labels w;
        commentsDown := commentsDown w; postingDown := postingDown w;
        updatesDown := updatesDown w |},
     Ok (Z.of_nat (length old))).

Definition updateBug (id : Z) (u : BugUpdate) (w : World) : World * option error :=
  if updatesDown w then (w, Some unavailable)
  else
    match bugs w !! id with
    | None => (w, Some notFound)
    | Some bug =>
        let bug' := {| ID := ID bug; Status := BugUpdate_Status u;
                       TargetRelease := TargetRelease bug;
                       QAContactDetail := QAContactDetail bug |} in
        ({| bugs := <[id := bug']> (bugs w); links := links w;
            comments := comments w; labels := labels w;
            commentsDown := commentsDown w; postingDown := postingDown w;
            updatesDown := updatesDown w |},
         None)
    end.

Fixpoint lookupLabels (p : pr) (table : list (pr * list github.Label))
    : result (list github.Label) :=
  match table with
  | [] => Err notFound
  | (p', ls) :: table' => if decide (p' = p) then Ok ls else lookupLabels p table'
  end.

Definition getIssueLabels (org repo : string) (num : Z) (w : World)
    : World * result (list github.Label) :=
  (w, lookupLabels {| org := org; repo := repo; prNum := num |} (labels w)).

#[global] Instance bzClient : BugzillaClient World := {
  GetBug := getBug;
  GetExternalBugPRsOnBug := getExternalBugPRsOnBug;
  GetComments := getComments;
  CreateComment := createComment;
  UpdateBug := updateBug
}.

#[global] Instance ghClient : GithubClient World := {
  GetIssueLabels := getIssueLabels
}.

(** The tracker shows a robot comment with this text on the bug. *)
Definition shows (w : World) (id : Z) (message : string) : Prop :=
  alreadyCommented message (default [] (comments w !! id)) = true.

(** Modelled from the spec: the release-version parser of section 6
    ([parseSemver], [toMajorMinor]) lives in another package. A tag is
    taken to be three numerals separated by dots, and its release is
    [major.minor]. *)
Record SemVer : Type := { Major : N; Minor : N; Patch : N }.

Definition parseNumeral (s : string) : option N :=
  match s with
  | EmptyString => None
  | _ => N.of_uint <$> NilZero.uint_of_string s
  end.

Definition SemverParseTolerant (v : string) : result SemVer :=
  match Split v "."%char with
  | [major; minor; patch] =>
      match parseNumeral major, parseNumeral minor, parseNumeral patch with
      | Some major, Some minor, Some patch =>
          Ok {| Major := major; Minor := minor; Patch := patch |}
      | _, _, _ => Err (fmtError "Invalid character(s) found in version")
      end
  | _ => Err (fmtError "No Major.Minor.Patch elements found")
  end.

Definition SemverToMajorMinor (sr : SemVer) : string :=
  Itoa (Z.of_N (Major sr)) +:+ "." +:+ Itoa (Z.of_N (Minor sr)).

(** The enumeration of the map that [range] follows in this world. *)
Definition rangeOrder (bzPRs : gmap Z (list pr)) : list (Z * list pr) :=
  map_to_list bzPRs.

(** [VerifyBugs] and its loop body against this world. *)
Definition VerifyBugs : list Z -> string -> M World (list error) :=
  VerifyBugs SemVer SemverParseTolerant SemverToMajorMinor rangeOrder.

(** A bug, its pull request and the worlds of the examples. *)
Definition qa : User := {| bugzilla.Name := "Quinn" |}.

Definition bug1 (status targetRelease : string) : Bug :=
  {| ID := 1; Status := status; TargetRelease := [targetRelease];
     QAContactDetail := Some qa |}.

Definition pr5 : pr := {| org := "org"; repo := "repo"; prNum := 5 |}.
Definition pr6 : pr := {| org := "org"; repo := "repo"; prNum := 6 |}.

Definition link (p : pr) : ExternalBug :=
  {| URL := "https://github.com/"; Org := org p; Repo := repo p; Num := prNum p |}.

Definition jira : ExternalBug :=
  {| URL := "https://issues.redhat.com/"; Org := ""; Repo := ""; Num := 0 |}.

Definition qeApproved : github.Label := {| github.Name := "qe-approved" |}.
Definition lgtm : github.Label := {| github.Name := "lgtm" |}.

Definition world (bug : Bug) (prs : list (pr * list github.Label)) : World :=
  {| bugs := {[ 1%Z := bug ]};
     links := {[ 1%Z := Ok (jira :: map (fun x => link (fst x)) prs) ]};
     comments := ∅;
     labels := prs;
     commentsDown := false; postingDown := false; updatesDown := false |}.

(** Bug 1 is ON_QA for 4.14 and its only pull request is approved. *)
Definition approvedWorld : World :=
  world (bug1 "ON_QA" "4.14.0") [(pr5, [lgtm; qeApproved])].

(** Bug 1 is ON_QA for 4.14; one pull request is approved, one is not. *)
Definition mixedWorld : World :=
  world (bug1 "ON_QA" "4.14.0") [(pr5, [lgtm; qeApproved]); (pr6, [lgtm])].

(** Bug 1 is already VERIFIED. *)
Definition verifiedWorld : World :=
  world (bug1 "VERIFIED" "4.14.0") [(pr5, [qeApproved])].

(** Bug 1 is ON_QA with an approved pull request, for another release. *)
Definition otherReleaseWorld : World :=
  world (bug1 "ON_QA" "4.13.0") [(pr5, [qeApproved])].

(** Bug 1 is ON_QA with a target release that holds no dot. *)
Definition malformedWorld : World :=
  world (bug1 "ON_QA" "414") [(pr5, [qeApproved])].

(** Bug 1 is still NEW. *)
Definition newStatusWorld : World :=
  world (bug1 "NEW" "4.14.0") [(pr5, [qeApproved])].

(** Four bugs: links with one pull request, access denied, another
    failure, links without a pull request. *)
Definition linksWorld : World :=
  {| bugs := ∅;
     links := {[ 1%Z := Ok [jira; link pr5];
                 2%Z := Err (clientError true "access denied");
                 3%Z := Err (clientError false "timeout");
                 4%Z := Ok [jira] ]};
     comments := ∅;
     labels := [];
     commentsDown := false; postingDown := false; updatesDown := false |}.

Definition withCommentsDown (w : World) : World :=
  {| bugs := bugs w; links := links w; comments := comments w;
     labels := labels w;
     commentsDown := true; postingDown := postingDown w;
     updatesDown := updatesDown w |}.

Definition withPostingDown (w : World) : World :=
  {| bugs := bugs w; links := links w; comments := comments w;
     labels := labels w;
     commentsDown := commentsDown w; postingDown := true;
     updatesDown := updatesDown w |}.

End Fake.

(** ** Basic facts *)

Lemma append_cons (a : ascii) (s1 s2 : string) :
  String a s1 +:+ s2 = String a (s1 +:+ s2).
Proof. reflexivity. Qed.

Lemma append_assoc (s1 s2 s3 : string) : (s1 +:+ s2) +:+ s3 = s1 +:+ s2 +:+ s3.
Proof.
  induction s1 as [|a s1 IH]; [reflexivity|].
  rewrite !append_cons. f_equal. exact IH.
Qed.

Lemma append_empty_r (s : string) : s +:+ "" = s.
Proof.
  induction s as [|a s IH]; [reflexivity|].
  rewrite append_cons. f_equal. exact IH.
Qed.


Lemma appendPRLines_join (unlabeledPRs : list pr) (message : string) :
  appendPRLines message unlabeledPRs = message +:+ joinLines (map prLine unlabeledPRs).
Proof.
  revert message.
  induction unlabeledPRs as [|p l IH]; intros message;
    cbn [appendPRLines map joinLines].
  - now rewrite append_empty_r.
  - rewrite IH. unfold prLine. now rewrite !append_assoc.
Qed.

Lemma appendErrLines_join (bugErrs : list error) (message : string) :
  appendErrLines message bugErrs = message +:+ joinLines (map errLine bugErrs).
Proof.
  revert message.
  induction bugErrs as [|e l IH]; intros message;
    cbn [appendErrLines map joinLines].
  - now rewrite append_empty_r.
  - rewrite IH. unfold errLine. now rewrite !append_assoc.
Qed.

Lemma hasLabel_spec (labels : list github.Label) :
  hasLabel labels = true <->
  exists label, label ∈ labels /\ github.Name label = "qe-approved".
Proof.
  induction labels as [|l labels IH]; simpl.
  - split; [discriminate | intros (x & Hx & _); inversion Hx].
  - destruct (String.eqb (github.Name l) "qe-approved") eqn:E.
    + apply String.eqb_eq in E. split; [|reflexivity].
      intros _. exists l. split; [left | exact E].
    + apply String.eqb_neq in E. rewrite IH. split.
      * intros (x & Hx & Hn). exists x. split; [now right | exact Hn].
      * intros (x & Hx & Hn). apply elem_of_cons in Hx as [->|Hx]; [contradiction|].
        exists x. now split.
Qed.

Lemma alreadyCommented_spec (message : string) (comments : list Comment) :
  alreadyCommented message comments = true <->
  exists comment, comment ∈ comments /\ Text comment = message /\
    (Creator comment = "openshift-bugzilla-robot" \/
     Creator comment = "openshift-bugzilla-robot@redhat.com").
Proof.
  assert (Hown : forall c, isOwnComment message c = true <->
            Text c = message /\
            (Creator c = "openshift-bugzilla-robot" \/
             Creator c = "openshift-bugzilla-robot@redhat.com")).
  { intros c. unfold isOwnComment.
    rewrite andb_true_iff, orb_true_iff, !String.eqb_eq. reflexivity. }
  induction comments as [|c comments IH]; simpl.
  - split; [discriminate | intros (x & Hx & _); inversion Hx].
  - destruct (isOwnComment message c) eqn:E.
    + split; [|reflexivity]. intros _. exists c. split; [left | now apply Hown].
    + rewrite IH. split.
      * intros (x & Hx & Hn). exists x. split; [now right | exact Hn].
      * intros (x & Hx & Hn). apply elem_of_cons in Hx as [->|Hx].
        -- apply Hown in Hn. congruence.
        -- exists x. now split.
Qed.

(** The composed message, piece by piece. *)
Lemma compose_failure (tagName : string) (bug : Bug)
    (unlabeledPRs : list pr) (bugErrs : list error) :
  unlabeledPRs <> [] \/ bugErrs <> [] ->
  compose tagName bug unlabeledPRs bugErrs =
    (false,
     baseLine tagName +:+ preamble +:+ joinLines (map prLine unlabeledPRs)
       +:+ joinLines (map errLine bugErrs) +:+ closingLine +:+ qaSuffix bug).
Proof.
  intros Hne. unfold compose.
  assert ((0 <? length unlabeledPRs) || (0 <? length bugErrs) = true) as ->.
  { destruct unlabeledPRs, bugErrs; simpl; try reflexivity. now destruct Hne. }
  f_equal. rewrite appendErrLines_join, appendPRLines_join.
  unfold baseLine, preamble, closingLine, qaSuffix.
  destruct (QAContactDetail bug); rewrite ?append_empty_r, !append_assoc; reflexivity.
Qed.

Lemma compose_success (tagName : string) (bug : Bug) :
  compose tagName bug [] [] = (true, baseLine tagName +:+ successLine).
Proof. reflexivity. Qed.

Lemma compose_success_iff (tagName : string) (bug : Bug)
    (unlabeledPRs : list pr) (bugErrs : list error) :
  fst (compose tagName bug unlabeledPRs bugErrs) = true <->
  unlabeledPRs = [] /\ bugErrs = [].
Proof.
  split.
  - intros H.
    destruct unlabeledPRs as [|p l]; [destruct bugErrs as [|e l']|];
      [split; reflexivity | |];
      (rewrite compose_failure in H;
       [discriminate H | (right; discriminate) || (left; discriminate)]).
  - intros [-> ->]. reflexivity.
Qed.

Lemma compose_nonempty (tagName : string) (bug : Bug)
    (unlabeledPRs : list pr) (bugErrs : list error) :
  String.eqb (snd (compose tagName bug unlabeledPRs bugErrs)) "" = false.
Proof.
  destruct (decide (unlabeledPRs = [] /\ bugErrs = [])) as [[-> ->]|Hne].
  - reflexivity.
  - rewrite compose_failure; [reflexivity|].
    destruct unlabeledPRs; [|left; discriminate].
    destruct bugErrs; [|right; discriminate]. now destruct Hne.
Qed.

(** The projections of a trace distribute over concatenation. *)
Ltac projection_app t1 :=
  induction t1 as [|[] t1 IH]; intros; cbn; rewrite ?IH;
  try (match goal with |- context [if ?b then _ else _] => destruct b end);
  reflexivity.

Lemma labelFetches_app (t1 t2 : list event) :
  labelFetches (t1 ++ t2) = labelFetches t1 ++ labelFetches t2.
Proof. projection_app t1. Qed.

Lemma linkFetches_app (id : Z) (t1 t2 : list event) :
  linkFetches id (t1 ++ t2) = linkFetches id t1 ++ linkFetches id t2.
Proof. projection_app t1. Qed.

Lemma linkFetchIDs_app (t1 t2 : list event) :
  linkFetchIDs (t1 ++ t2) = linkFetchIDs t1 ++ linkFetchIDs t2.
Proof. projection_app t1. Qed.

Lemma bugFetches_app (t1 t2 : list event) :
  bugFetches (t1 ++ t2) = bugFetches t1 ++ bugFetches t2.
Proof. projection_app t1. Qed.

Lemma updates_app (t1 t2 : list event) :
  updates (t1 ++ t2) = updates t1 ++ updates t2.
Proof. projection_app t1. Qed.

Lemma creates_app (t1 t2 : list event) :
  creates (t1 ++ t2) = creates t1 ++ creates t2.
Proof. projection_app t1. Qed.

Lemma posted_app (id : Z) (message : string) (t1 t2 : list event) :
  posted id message (t1 ++ t2) = posted id message t1 ++ posted id message t2.
Proof.
  induction t1 as [|e t1 IH]; [reflexivity|].
  destruct e as [| | |c [n|err]| |]; cbn; rewrite ?IH; try reflexivity.
  destruct (_ && _); reflexivity.
Qed.

Lemma commentFetches_app (t1 t2 : list event) :
  commentFetches (t1 ++ t2) = commentFetches t1 ++ commentFetches t2.
Proof. projection_app t1. Qed.

Lemma linkErrs_app (t1 t2 : list event) :
  linkErrs (t1 ++ t2) = linkErrs t1 ++ linkErrs t2.
Proof.
  induction t1 as [|e t1 IH]; [reflexivity|].
  destruct e as [|id [x|err]| | | |]; cbn; rewrite ?IH; try reflexivity.
  destruct (IsAccessDenied err); reflexivity.
Qed.


(** ** The link resolver *)

Lemma githubPRs_cons (extBug : ExternalBug) (rest : list ExternalBug) :
  githubPRs (extBug :: rest) =
    if String.eqb (URL extBug) "https://github.com/"
    then {| org := Org extBug; repo := Repo extBug; prNum := Num extBug |}
           :: githubPRs rest
    else githubPRs rest.
Proof.
  unfold githubPRs. rewrite filter_cons.
  destruct (String.eqb (URL extBug) "https://github.com/"); reflexivity.
Qed.

Lemma appendPRs_spec (bzID : Z) (extBugs : list ExternalBug) (bzPRs : gmap Z (list pr)) :
  appendPRs bzID extBugs bzPRs =
    match githubPRs extBugs with
    | [] => bzPRs
    | prs => <[bzID := default [] (bzPRs !! bzID) ++ prs]> bzPRs
    end.
Proof.
  revert bzPRs. induction extBugs as [|extBug rest IH]; intros bzPRs.
  - reflexivity.
  - rewrite githubPRs_cons. cbn [appendPRs].
    destruct (String.eqb (URL extBug) "https://github.com/"); [|apply IH].
    set (p := {| org := Org extBug; repo := Repo extBug; prNum := Num extBug |}).
    assert (Hstep : forall old,
      appendPRs bzID rest (<[bzID := old ++ [p]]> bzPRs) =
      <[bzID := old ++ p :: githubPRs rest]> bzPRs).
    { intros old. rewrite IH, lookup_insert_eq. cbn [default].
      destruct (githubPRs rest) as [|q prs]; [reflexivity|].
      rewrite insert_insert_eq. unfold id. now rewrite <- app_assoc. }
    destruct (bzPRs !! bzID) as [existingPRs|]; cbn [default].
    + apply Hstep.
    + apply (Hstep []).
Qed.

Lemma appendPRs_lookup (bzID id : Z) (extBugs : list ExternalBug)
    (bzPRs : gmap Z (list pr)) :
  default [] (appendPRs bzID extBugs bzPRs !! id) =
    default [] (bzPRs !! id) ++ (if Z.eqb bzID id then githubPRs extBugs else []).
Proof.
  rewrite appendPRs_spec.
  destruct (Z.eqb_spec bzID id) as [->|Hne].
  - destruct (githubPRs extBugs); [now rewrite app_nil_r|].
    now rewrite lookup_insert_eq.
  - rewrite app_nil_r. destruct (githubPRs extBugs); [reflexivity|].
    now rewrite lookup_insert_ne.
Qed.

Lemma appendPRs_noEmptyEntry (bzID : Z) (extBugs : list ExternalBug)
    (bzPRs : gmap Z (list pr)) :
  noEmptyEntry bzPRs -> noEmptyEntry (appendPRs bzID extBugs bzPRs).
Proof.
  intros Hm id prs. rewrite appendPRs_spec.
  destruct (githubPRs extBugs) as [|q qs]; [apply Hm|].
  destruct (decide (bzID = id)) as [->|Hne].
  - rewrite lookup_insert_eq. intros [= <-]. now destruct (default [] (bzPRs !! id)).
  - rewrite lookup_insert_ne by exact Hne. apply Hm.
Qed.

Lemma only_link_fetches (t : list event) :
  Forall (fun e => isLinkFetch e = true) t ->
  length (linkFetchIDs t) = length t /\
  bugFetches t = [] /\ labelFetches t = [] /\ commentFetches t = [] /\
  creates t = [] /\ updates t = [].
Proof.
  induction 1 as [|e t He _ IH]; [repeat split|].
  destruct e; try discriminate He. cbn.
  destruct IH as (-> & ? & ? & ? & ? & ?). repeat split; assumption.
Qed.

Section Resolver.

Context {W : Type} `{bzClient : BugzillaClient W}.

(** What the loop of [getPRs] does to its accumulators, read off the
    trace of the link fetches. *)
Lemma getPRsLoop_spec (input : list Z) :
  forall (bzPRs : gmap Z (list pr)) (errs : list error) (w w' : W)
         (t : list event) (bzPRs' : gmap Z (list pr)) (errs' : list error),
    getPRsLoop input bzPRs errs w = (w', t, (bzPRs', errs')) ->
    linkFetchIDs t = input /\
    Forall (fun e => isLinkFetch e = true) t /\
    errs' = errs ++ linkErrs t /\
    (forall id, default [] (bzPRs' !! id) =
                default [] (bzPRs !! id) ++ fetchedPRs (linkFetches id t)) /\
    (noEmptyEntry bzPRs -> noEmptyEntry bzPRs').
Proof.
  induction input as [|bzID rest IH]; intros bzPRs errs w w' t bzPRs' errs' Hrun.
  - injection Hrun as <- <- <- <-. cbn.
    repeat split; intros; rewrite ?app_nil_r; auto.
  - cbn [getPRsLoop] in Hrun. unfold bind, call in Hrun.
    destruct (GetExternalBugPRsOnBug bzID w) as [w1 r].
    assert (Hcons : forall id r' rs,
      fetchedPRs (linkFetches id (EvGetExternalBugPRsOnBug bzID r' :: rs)) =
      (if Z.eqb bzID id
       then match r' with Ok extBugs => githubPRs extBugs | Err _ => [] end
       else []) ++ fetchedPRs (linkFetches id rs)).
    { intros id r' rs. cbn. destruct (Z.eqb bzID id); reflexivity. }
    destruct r as [extBugs|err]; [|destruct (IsAccessDenied err) eqn:Hdenied].
    + destruct (getPRsLoop rest _ errs w1) as [[w2 t2] [m2 e2]] eqn:Hrest.
      injection Hrun as <- <- <- <-.
      apply IH in Hrest as (Hids & Hall & Herrs & Hmap & Hne).
      repeat split.
      * cbn. now rewrite Hids.
      * constructor; [reflexivity | exact Hall].
      * exact Herrs.
      * intros id. rewrite Hmap, appendPRs_lookup, Hcons, app_assoc. reflexivity.
      * intros Hm. apply Hne, appendPRs_noEmptyEntry, Hm.
    + destruct (getPRsLoop rest bzPRs errs w1) as [[w2 t2] [m2 e2]] eqn:Hrest.
      injection Hrun as <- <- <- <-.
      apply IH in Hrest as (Hids & Hall & Herrs & Hmap & Hne).
      repeat split.
      * cbn. now rewrite Hids.
      * constructor; [reflexivity | exact Hall].
      * cbn. rewrite Hdenied. exact Herrs.
      * intros id. rewrite Hmap, Hcons.
        destruct (Z.eqb bzID id); reflexivity.
      * exact Hne.
    + destruct (getPRsLoop rest bzPRs _ w1) as [[w2 t2] [m2 e2]] eqn:Hrest.
      injection Hrun as <- <- <- <-.
      apply IH in Hrest as (Hids & Hall & Herrs & Hmap & Hne).
      repeat split.
      * cbn. now rewrite Hids.
      * constructor; [reflexivity | exact Hall].
      * cbn. rewrite Hdenied, Herrs, <- app_assoc. reflexivity.
      * intros id. rewrite Hmap, Hcons.
        destruct (Z.eqb bzID id); reflexivity.
      * exact Hne.
Qed.

Lemma getPRs_spec (input : list Z) (w w' : W) (t : list event)
    (bzPRs : gmap Z (list pr)) (errs : list error) :
  getPRs input w = (w', t, (bzPRs, errs)) ->
  linkFetchIDs t = input /\
  Forall (fun e => isLinkFetch e = true) t /\
  errs = linkErrs t /\
  (forall id, default [] (bzPRs !! id) = fetchedPRs (linkFetches id t)) /\
  noEmptyEntry bzPRs.
Proof.
  intros Hrun. apply getPRsLoop_spec in Hrun as (Hids & Hall & Herrs & Hmap & Hne).
  split; [exact Hids|]. split; [exact Hall|]. split; [exact Herrs|].
  split.
  - intros id. rewrite Hmap, lookup_empty. reflexivity.
  - apply Hne. intros id prs. rewrite lookup_empty. discriminate.
Qed.


End Resolver.

(** ** The verification engine, phase by phase *)

Lemma unapproved_cons (p : pr) (r : result (list github.Label))
    (fetches : list (pr * result (list github.Label))) :
  unapproved ((p, r) :: fetches) =
    if approved r then unapproved fetches else p :: unapproved fetches.
Proof.
  unfold unapproved. rewrite filter_cons. cbn [snd].
  destruct (approved r); reflexivity.
Qed.

Section Engine.

Context {W : Type} `{bzClient : BugzillaClient W} `{ghClient : GithubClient W}.

Lemma checkLabels_spec (extPRs : list pr) :
  forall (errs : list error) (unlabeledPRs : list pr) (bugErrs : list error)
         (w w' : W) (t : list event)
         (errs' : list error) (unlabeledPRs' : list pr) (bugErrs' : list error),
    checkLabels extPRs errs unlabeledPRs bugErrs w =
      (w', t, (errs', unlabeledPRs', bugErrs')) ->
    map fst (labelFetches t) = extPRs /\
    Forall (fun e => isLabelFetch e = true) t /\
    errs' = errs ++ labelErrs (labelFetches t) /\
    unlabeledPRs' = unlabeledPRs ++ unapproved (labelFetches t) /\
    bugErrs' = bugErrs ++ labelErrs (labelFetches t).
Proof.
  induction extPRs as [|extPR rest IH];
    intros errs unl bugErrs w w' t errs' unl' bugErrs' Hrun.
  - injection Hrun as <- <- <- <- <-. cbn.
    repeat split; rewrite ?app_nil_r; auto.
  - cbn [checkLabels] in Hrun. unfold bind, call in Hrun.
    destruct (GetIssueLabels (org extPR) (repo extPR) (prNum extPR) w) as [w1 r].
    destruct r as [labels|err]; [destruct (hasLabel labels) eqn:Hlabel|];
      cbn [negb hasLabel] in Hrun;
      match type of Hrun with
      | context [checkLabels rest ?e ?u ?b w1] =>
          destruct (checkLabels rest e u b w1) as [[w2 t2] [[e2 u2] b2]] eqn:Hrest
      end;
      injection Hrun as <- <- <- <- <-;
      apply IH in Hrest as (Hprs & Hall & -> & -> & ->);
      cbn [labelFetches app map fst labelErrs]; rewrite unapproved_cons;
      cbn [approved]; rewrite ?Hlabel, ?Hprs, <- ?app_assoc;
      (split; [reflexivity|]); (split; [constructor; [reflexivity | exact Hall]|]);
      repeat split; reflexivity.
Qed.

Lemma transition_spec (success : bool) (bug : Bug) (errs : list error)
    (w w' : W) (t : list event) (errs' : list error) :
  transition success bug errs w = (w', t, errs') ->
  exists updated,
    t = (if success then [EvUpdateBug (ID bug) verifiedUpdate updated] else []) /\
    exists more, errs' = errs ++ more.
Proof.
  unfold transition, bind, call, ret. destruct success.
  - destruct (UpdateBug (ID bug) _ w) as [w1 [err|]]; intros [= <- <- <-].
    + exists (Some err). split; [reflexivity | eauto].
    + exists None. split; [reflexivity | exists []; now rewrite app_nil_r].
  - intros [= <- <- <-]. exists None.
    split; [reflexivity | exists []; now rewrite app_nil_r].
Qed.

Lemma conclude_spec (tagName : string) (bugID : Z) (bug : Bug)
    (errs : list error) (unlabeledPRs : list pr) (bugErrs : list error)
    (w w' : W) (t : list event) (errs' : list error) (v : verdict) :
  conclude tagName bugID bug errs unlabeledPRs bugErrs w = (w', t, (errs', v)) ->
  let success := fst (compose tagName bug unlabeledPRs bugErrs) in
  let message := snd (compose tagName bug unlabeledPRs bugErrs) in
  v = Decided success message /\
  (exists fetched created updated,
      t = concludeTrace bugID bug success message fetched created updated) /\
  exists more, errs' = errs ++ more.
Proof.
  unfold conclude. pose proof (compose_nonempty tagName bug unlabeledPRs bugErrs) as Hne.
  destruct (compose tagName bug unlabeledPRs bugErrs) as [success message].
  cbn [fst snd] in *. rewrite Hne. cbn [negb]. unfold bind, call, ret.
  destruct (GetComments bugID w) as [w1 [comments|err]].
  - unfold concludeTrace.
    destruct (alreadyCommented message comments) eqn:Hac; cbn [negb].
    + destruct (transition success bug errs w1) as [[w2 t2] e2] eqn:Htr.
      intros [= <- <- <- <-].
      apply transition_spec in Htr as (updated & -> & more & ->).
      split; [reflexivity|]. split; [|eauto].
      exists (Ok comments), (Ok 0%Z), updated. cbn. now rewrite Hac, app_nil_r.
    + destruct (CreateComment _ w1) as [w2 created].
      destruct created as [n|err];
        match goal with
        | |- context [transition success bug ?e w2] =>
            destruct (transition success bug e w2) as [[w3 t3] e3] eqn:Htr
        end;
        intros [= <- <- <- <-];
        apply transition_spec in Htr as (updated & -> & more & ->);
        (split; [reflexivity|]); split.
      * exists (Ok comments), (Ok n), updated. cbn. now rewrite Hac, app_nil_r.
      * eauto.
      * exists (Ok comments), (Err err), updated. cbn. now rewrite Hac, app_nil_r.
      * rewrite <- app_assoc. eauto.
  - intros [= <- <- <- <-]. split; [reflexivity|]. split; [|eauto].
    exists (Err err), (Ok 0%Z), None. reflexivity.
Qed.

End Engine.

(** The projections of the calls of [conclude]. *)
Lemma concludeTrace_projections (bugID : Z) (bug : Bug) (success : bool)
    (message : string) (fetched : result (list Comment)) (created : result Z)
    (updated : option error) :
  let t := concludeTrace bugID bug success message fetched created updated in
  bugFetches t = [] /\ labelFetches t = [] /\ linkFetchIDs t = [] /\
  commentFetches t = [(bugID, fetched)] /\
  creates t =
    match fetched with
    | Ok comments =>
        if alreadyCommented message comments then []
        else [privateComment bugID message]
    | Err _ => []
    end /\
  updates t =
    match fetched with
    | Ok _ => if success then [(ID bug, verifiedUpdate)] else []
    | Err _ => []
    end.
Proof.
  unfold concludeTrace.
  destruct fetched as [comments|err]; [|repeat split].
  destruct (alreadyCommented message comments), success; repeat split.
Qed.

Lemma label_fetches_only (t : list event) :
  Forall (fun e => isLabelFetch e = true) t ->
  t = map (fun f => EvGetIssueLabels (fst f) (snd f)) (labelFetches t).
Proof.
  induction 1 as [|e t He _ IH]; [reflexivity|].
  destruct e; try discriminate He. cbn. now rewrite <- IH.
Qed.

Section Body.

Context {W : Type} `{bzClient : BugzillaClient W} `{ghClient : GithubClient W}.

(** The body of the loop, path by path. *)
Lemma verifyBug_inv (tagName tagRelease : string) (bugID : Z) (extPRs : list pr)
    (errs : list error) (w w' : W) (t : list event) (errs' : list error)
    (v : verdict) :
  verifyBug tagName tagRelease bugID extPRs errs w = (w', t, (errs', v)) ->
  exists fetched rest w1,
    GetBug bugID w = (w1, fetched) /\
    t = EvGetBug bugID fetched :: rest /\
    match fetched with
    | Err err => rest = [] /\ v = Skipped /\ exists more, errs' = errs ++ [more]
    | Ok bug =>
        match targetReleaseGate tagRelease bug with
        | SameRelease =>
            if String.eqb (Status bug) "ON_QA" then
              exists w2 labelCalls errs2 unlabeledPRs bugErrs finalCalls,
                checkLabels extPRs errs [] [] w1
                  = (w2, labelCalls, (errs2, unlabeledPRs, bugErrs)) /\
                conclude tagName bugID bug errs2 unlabeledPRs bugErrs w2
                  = (w', finalCalls, (errs', v)) /\
                rest = labelCalls ++ finalCalls
            else if String.eqb (Status bug) "VERIFIED" then
              rest = [] /\ v = Skipped /\ errs' = errs /\ w' = w1
            else
              conclude tagName bugID bug errs [] [notOnQA] w1 = (w', rest, (errs', v))
        | MalformedTargetRelease _ =>
            rest = [] /\ v = Skipped /\ exists more, errs' = errs ++ [more]
        | _ => rest = [] /\ v = Skipped /\ errs' = errs /\ w' = w1
        end
    end.
Proof.
  unfold verifyBug, bind, call, ret.
  destruct (GetBug bugID w) as [w1 [bug|err]].
  2:{ intros [= <- <- <- <-]. exists (Err err), [], w1. eauto 10. }
  destruct (targetReleaseGate tagRelease bug) eqn:Hgate.
  1-3: intros [= <- <- <- <-]; exists (Ok bug), [], w1; rewrite Hgate; eauto 10.
  destruct (String.eqb (Status bug) "ON_QA") eqn:Hqa; cbn [negb].
  - destruct (checkLabels extPRs errs [] [] w1) as [[w2 tl] [[e2 u2] b2]] eqn:Hl.
    destruct (conclude tagName bugID bug e2 u2 b2 w2) as [[w3 tc] [e3 v3]] eqn:Hc.
    intros [= <- <- <- <-]. exists (Ok bug), (tl ++ tc), w1.
    rewrite Hgate, Hqa. split; [reflexivity|]. split; [reflexivity|].
    exists w2, tl, e2, u2, b2, tc. auto.
  - destruct (String.eqb (Status bug) "VERIFIED") eqn:Hv.
    + intros [= <- <- <- <-]. exists (Ok bug), [], w1.
      rewrite Hgate, Hqa, Hv. auto 10.
    + destruct (conclude tagName bugID bug errs [] _ w1) as [[w3 tc] [e3 v3]] eqn:Hc.
      intros [= <- <- <- <-]. exists (Ok bug), tc, w1.
      rewrite Hgate, Hqa, Hv. auto 10.
Qed.

End Body.

Lemma labelCalls_projections (fetches : list (pr * result (list github.Label))) :
  labelFetches (labelCalls fetches) = fetches /\
  bugFetches (labelCalls fetches) = [] /\
  linkFetchIDs (labelCalls fetches) = [] /\
  commentFetches (labelCalls fetches) = [] /\
  creates (labelCalls fetches) = [] /\
  updates (labelCalls fetches) = [].
Proof.
  induction fetches as [|[p r] fetches (IH & ? & ? & ? & ? & ?)]; [repeat split|].
  change (labelCalls ((p, r) :: fetches))
    with (EvGetIssueLabels p r :: labelCalls fetches).
  cbn [labelFetches bugFetches linkFetchIDs commentFetches creates updates].
  rewrite IH. repeat split; assumption.
Qed.

Lemma decidedTrace_projections (bugID : Z) (bug : Bug)
    (fetches : list (pr * result (list github.Label)))
    (success : bool) (message : string)
    (fetched : result (list Comment)) (created : result Z) (updated : option error) :
  let t := decidedTrace bugID bug fetches success message fetched created updated in
  bugFetches t = [(bugID, Ok bug)] /\
  labelFetches t = fetches /\
  linkFetchIDs t = [] /\
  commentFetches t = [(bugID, fetched)] /\
  creates t =
    match fetched with
    | Ok comments =>
        if alreadyCommented message comments then []
        else [privateComment bugID message]
    | Err _ => []
    end /\
  updates t =
    match fetched with
    | Ok _ => if success then [(ID bug, verifiedUpdate)] else []
    | Err _ => []
    end.
Proof.
  cbn zeta. unfold decidedTrace.
  destruct (labelCalls_projections fetches) as (Hl1 & Hl2 & Hl3 & Hl4 & Hl5 & Hl6).
  destruct (concludeTrace_projections bugID bug success message fetched created updated)
    as (Hc1 & Hc2 & Hc3 & Hc4 & Hc5 & Hc6).
  cbn [bugFetches labelFetches linkFetchIDs commentFetches creates updates].
  rewrite bugFetches_app, labelFetches_app, linkFetchIDs_app, commentFetches_app,
    creates_app, updates_app.
  rewrite Hl1, Hl2, Hl3, Hl4, Hl5, Hl6, Hc1, Hc2, Hc3, Hc4, Hc5, Hc6.
  rewrite !app_nil_r. repeat split.
Qed.

Section Shape.

Context {W : Type} `{bzClient : BugzillaClient W} `{ghClient : GithubClient W}.

(** Every run of the body either leaves the bug alone after fetching it,
    or reaches the decision. *)
Lemma verifyBug_shape (tagName tagRelease : string) (bugID : Z) (extPRs : list pr)
    (errs : list error) (w w' : W) (t : list event) (errs' : list error)
    (v : verdict) :
  verifyBug tagName tagRelease bugID extPRs errs w = (w', t, (errs', v)) ->
  (exists fetched,
      v = Skipped /\ t = [EvGetBug bugID fetched] /\
      match fetched with
      | Err _ => exists more, errs' = errs ++ [more]
      | Ok bug =>
          match targetReleaseGate tagRelease bug with
          | SameRelease => Status bug = "VERIFIED" /\ errs' = errs
          | MalformedTargetRelease _ => exists more, errs' = errs ++ [more]
          | _ => errs' = errs
          end
      end) \/
  (exists bug fetches fetched created updated,
      let unlabeledPRs :=
        if String.eqb (Status bug) "ON_QA" then unapproved fetches else [] in
      let bugErrs :=
        if String.eqb (Status bug) "ON_QA" then labelErrs fetches else [notOnQA] in
      let success := fst (compose tagName bug unlabeledPRs bugErrs) in
      let message := snd (compose tagName bug unlabeledPRs bugErrs) in
      v = Decided success message /\
      t = decidedTrace bugID bug fetches success message fetched created updated /\
      targetReleaseGate tagRelease bug = SameRelease /\
      Status bug <> "VERIFIED" /\
      (if String.eqb (Status bug) "ON_QA" then map fst fetches = extPRs
       else fetches = []) /\
      exists more, errs' = errs ++ labelErrs fetches ++ more).
Proof.
  intros Hrun.
  apply verifyBug_inv in Hrun as (fetched & rest & w1 & _ & -> & Hpath).
  destruct fetched as [bug|err].
  2:{ left. destruct Hpath as (-> & -> & Herrs). exists (Err err). auto. }
  destruct (targetReleaseGate tagRelease bug) eqn:Hgate.
  1: destruct Hpath as (-> & -> & -> & _); left; exists (Ok bug);
     rewrite Hgate; auto.
  1: destruct Hpath as (-> & -> & Herrs); left; exists (Ok bug);
     rewrite Hgate; auto.
  1: destruct Hpath as (-> & -> & -> & _); left; exists (Ok bug);
     rewrite Hgate; auto.
  destruct (String.eqb (Status bug) "ON_QA") eqn:Hqa.
  - right. destruct Hpath as (w2 & tl & e2 & u2 & b2 & tc & Hl & Hc & ->).
    apply checkLabels_spec in Hl as (Hprs & Hall & He & Hu & Hb).
    cbn [app] in Hu, Hb. subst e2 u2 b2.
    apply conclude_spec in Hc as (Hv & (fc & cr & up & ->) & more & ->).
    exists bug, (labelFetches tl), fc, cr, up. rewrite Hqa. cbn zeta in *.
    split; [exact Hv|]. split.
    { unfold decidedTrace, labelCalls. now rewrite <- (label_fetches_only tl Hall). }
    split; [exact Hgate|]. split.
    { intros Hs. rewrite Hs in Hqa. discriminate Hqa. }
    split; [exact Hprs|]. exists more. now rewrite <- app_assoc.
  - destruct (String.eqb (Status bug) "VERIFIED") eqn:Hv.
    + left. destruct Hpath as (-> & -> & -> & _). exists (Ok bug).
      rewrite Hgate. apply String.eqb_eq in Hv. auto.
    + right. apply conclude_spec in Hpath as (Hv' & (fc & cr & up & ->) & more & ->).
      exists bug, [], fc, cr, up. rewrite Hqa. cbn zeta in *.
      split; [exact Hv'|]. split; [reflexivity|]. split; [exact Hgate|].
      split; [now apply String.eqb_neq|]. split; [reflexivity|].
      exists more. reflexivity.
Qed.

(** The run of the body for an ON_QA bug of the release of the tag. *)
Lemma verifyBug_ON_QA (tagName tagRelease : string) (bugID : Z) (extPRs : list pr)
    (errs : list error) (w w' : W) (t : list event) (errs' : list error)
    (v : verdict) (bug : Bug) :
  verifyBug tagName tagRelease bugID extPRs errs w = (w', t, (errs', v)) ->
  bugFetches t = [(bugID, Ok bug)] ->
  targetReleaseGate tagRelease bug = SameRelease ->
  Status bug = "ON_QA" ->
  let fetches := labelFetches t in
  let success := fst (compose tagName bug (unapproved fetches) (labelErrs fetches)) in
  let message := snd (compose tagName bug (unapproved fetches) (labelErrs fetches)) in
  map fst fetches = extPRs /\
  v = Decided success message /\
  (exists fetched created updated,
      t = decidedTrace bugID bug fetches success message fetched created updated) /\
  exists more, errs' = errs ++ labelErrs fetches ++ more.
Proof.
  intros Hrun Hbug Hgate Hstatus.
  apply verifyBug_shape in Hrun
    as [(fetched & -> & -> & Hwhy)
       |(bug' & fetches & fc & cr & up & Hv & -> & _ & _ & Hprs & Herrs)].
  - cbn in Hbug. injection Hbug as ->. rewrite Hgate, Hstatus in Hwhy.
    destruct Hwhy as [Hwhy _]. discriminate Hwhy.
  - cbn zeta in *.
    pose proof (decidedTrace_projections bugID bug' fetches
      (fst (compose tagName bug'
              (if String.eqb (Status bug') "ON_QA" then unapproved fetches else [])
              (if String.eqb (Status bug') "ON_QA" then labelErrs fetches else [notOnQA])))
      (snd (compose tagName bug'
              (if String.eqb (Status bug') "ON_QA" then unapproved fetches else [])
              (if String.eqb (Status bug') "ON_QA" then labelErrs fetches else [notOnQA])))
      fc cr up) as (Hb & Hl & _).
    cbn zeta in Hb, Hl. rewrite Hb in Hbug. injection Hbug as <-.
    rewrite Hl. rewrite Hstatus in *. cbn in Hprs, Hv |- *.
    split; [exact Hprs|]. split; [exact Hv|]. split; [|exact Herrs].
    exists fc, cr, up. reflexivity.
Qed.

End Shape.

(** ** Facts about the fetched labels *)

Lemma unapproved_elem (p : pr) (fetches : list (pr * result (list github.Label))) :
  p ∈ unapproved fetches <-> exists r, (p, r) ∈ fetches /\ approved r = false.
Proof.
  unfold unapproved. rewrite list_elem_of_fmap. split.
  - intros ([q r] & -> & Hin). apply list_elem_of_filter in Hin as [Hna Hin].
    exists r. split; [exact Hin|]. cbn in Hna. now destruct (approved r).
  - intros (r & Hin & Hna). exists (p, r). split; [reflexivity|].
    apply list_elem_of_filter. split; [|exact Hin]. cbn. now rewrite Hna.
Qed.

Lemma unapproved_nil_iff (fetches : list (pr * result (list github.Label))) :
  unapproved fetches = [] <-> forall p r, (p, r) ∈ fetches -> approved r = true.
Proof.
  split.
  - intros Hnil p r Hin. destruct (approved r) eqn:Ha; [reflexivity|].
    assert (p ∈ unapproved fetches) as Hp by (apply unapproved_elem; eauto).
    rewrite Hnil in Hp. inversion Hp.
  - intros Hall. destruct (unapproved fetches) as [|p l] eqn:Hu; [reflexivity|].
    assert (p ∈ unapproved fetches) as Hp by (rewrite Hu; left).
    apply unapproved_elem in Hp as (r & Hin & Hna).
    rewrite (Hall p r Hin) in Hna. discriminate Hna.
Qed.

Lemma labelErrs_elem (err : error) (fetches : list (pr * result (list github.Label))) :
  err ∈ labelErrs fetches <->
  exists p cause, (p, Err cause) ∈ fetches /\ err = labelErr p cause.
Proof.
  induction fetches as [|[q [labels|cause]] fetches IH]; cbn [labelErrs].
  - split; [intros H; inversion H | intros (p & c & H & _); inversion H].
  - rewrite IH. split; intros (p & c & Hin & ->); exists p, c; split; auto.
    + now right.
    + apply elem_of_cons in Hin as [[=]|Hin]; exact Hin.
  - rewrite elem_of_cons, IH. split.
    + intros [->|(p & c & Hin & ->)]; [exists q, cause | exists p, c];
        split; auto; [left | now right].
    + intros (p & c & Hin & ->). apply elem_of_cons in Hin as [[= -> ->]|Hin];
        [now left | right; eauto].
Qed.

Lemma labelErrs_nil_iff (fetches : list (pr * result (list github.Label))) :
  labelErrs fetches = [] <-> forall p r, (p, r) ∈ fetches -> isOk r = true.
Proof.
  split.
  - intros Hnil p [labels|cause] Hin; [reflexivity|].
    assert (labelErr p cause ∈ labelErrs fetches) as Hp
      by (apply labelErrs_elem; eauto).
    rewrite Hnil in Hp. inversion Hp.
  - intros Hall. destruct (labelErrs fetches) as [|e l] eqn:Hl; [reflexivity|].
    assert (e ∈ labelErrs fetches) as He by (rewrite Hl; left).
    apply labelErrs_elem in He as (p & c & Hin & _).
    apply Hall in Hin. discriminate Hin.
Qed.

Lemma approved_spec (r : result (list github.Label)) :
  approved r = true <->
  exists labels, r = Ok labels /\
    exists label, label ∈ labels /\ github.Name label = "qe-approved".
Proof.
  destruct r as [labels|err]; cbn [approved].
  - rewrite hasLabel_spec. split; [eauto|]. now intros (? & [= <-] & H).
  - split; [discriminate | intros (? & [=] & _)].
Qed.


(** ** Properties of the loop body *)

Section BodyProperties.

Context {W : Type} `{bzClient : BugzillaClient W} `{ghClient : GithubClient W}.

(** C1 (amended): for a bug of the map that was fetched with status ON_QA,
    whose target release is the release of the tag, and for which no
    fetch made by the body failed: one label fetch is made per linked
    pull request, in order; the outcome is success if and only if every
    fetched label list contains a label named "qe-approved"; on success
    exactly one status update is issued, it is
    [UpdateBug(bug.ID, VERIFIED)], and the message is the base line
    followed by the line announcing the automatic move to VERIFIED. *)
Theorem ON_QA_success_iff_all_approved
    (tagName tagRelease : string) (bugID : Z) (extPRs : list pr)
    (errs : list error) (w w' : W) (t : list event) (errs' : list error)
    (v : verdict) (bug : Bug) :
  verifyBug tagName tagRelease bugID extPRs errs w = (w', t, (errs', v)) ->
  bugFetches t = [(bugID, Ok bug)] ->
  Status bug = "ON_QA" ->
  targetReleaseGate tagRelease bug = SameRelease ->
  (forall e, e ∈ t -> failedFetch e = false) ->
  map fst (labelFetches t) = extPRs /\
  exists success message,
    v = Decided success message /\
    (success = true <->
     forall p r, (p, r) ∈ labelFetches t ->
       exists labels, r = Ok labels /\
         exists label, label ∈ labels /\ github.Name label = "qe-approved") /\
    (success = true ->
     updates t = [(ID bug, verifiedUpdate)] /\
     message = baseLine tagName +:+ successLine).
Proof.
  intros Hrun Hbug Hstatus Hgate Hok.
  destruct (verifyBug_ON_QA _ _ _ _ _ _ _ _ _ _ _ Hrun Hbug Hgate Hstatus)
    as (Hprs & Hv & (fc & cr & up & Ht) & _).
  split; [exact Hprs|].
  set (fetches := labelFetches t) in *.
  set (success := fst (compose tagName bug (unapproved fetches) (labelErrs fetches))) in *.
  set (message := snd (compose tagName bug (unapproved fetches) (labelErrs fetches))) in *.
  exists success, message. split; [exact Hv|].
  assert (Hiff : success = true <-> forall p r, (p, r) ∈ fetches -> approved r = true).
  { unfold success. rewrite compose_success_iff, unapproved_nil_iff. split.
    - now intros [H _].
    - intros H. split; [exact H|]. apply labelErrs_nil_iff. intros p r Hin.
      apply H in Hin. now destruct r. }
  split.
  - rewrite Hiff. split; intros H p r Hin; apply approved_spec, (H p r Hin).
  - intros Hs.
    destruct (decidedTrace_projections bugID bug fetches success message fc cr up)
      as (_ & _ & _ & Hcf & _ & Hup).
    cbn zeta in Hcf, Hup. rewrite <- Ht in Hcf, Hup.
    assert (exists comments, fc = Ok comments) as (comments & ->).
    { destruct fc as [comments|err]; [eauto|].
      assert (EvGetComments bugID (Err err) ∈ t) as Hin.
      { rewrite Ht. unfold decidedTrace, concludeTrace.
        apply elem_of_cons. right. apply elem_of_app. right. left. }
      apply Hok in Hin. discriminate Hin. }
    rewrite Hs in Hup. split; [exact Hup|].
    pose proof Hs as Hs'. unfold success in Hs'.
    apply compose_success_iff in Hs' as [Hu He].
    unfold message. now rewrite Hu, He.
Qed.

(** C7: for an ON_QA bug of the release whose outcome is not success, the
    message is the base line, the preamble, one line per pull request
    whose fetched labels lack "qe-approved" (in the order of the
    fetches, which is the order of the linked pull requests), one line
    per policy-failure reason in order, the manual-transition line, and
    the suffix [" by <name>"] exactly when the QA-contact detail is
    present. Only pull requests whose fetch showed no approval are
    listed, and when every label fetch succeeded there is no reason
    line. *)
Theorem failure_message_layout
    (tagName tagRelease : string) (bugID : Z) (extPRs : list pr)
    (errs : list error) (w w' : W) (t : list event) (errs' : list error)
    (message : string) (bug : Bug) :
  verifyBug tagName tagRelease bugID extPRs errs w
    = (w', t, (errs', Decided false message)) ->
  bugFetches t = [(bugID, Ok bug)] ->
  Status bug = "ON_QA" ->
  targetReleaseGate tagRelease bug = SameRelease ->
  let fetches := labelFetches t in
  map fst fetches = extPRs /\
  message =
    baseLine tagName +:+ preamble
      +:+ joinLines (map prLine (unapproved fetches))
      +:+ joinLines (map errLine (labelErrs fetches))
      +:+ closingLine
      +:+ match QAContactDetail bug with
          | Some qa => " by " +:+ bugzilla.Name qa
          | None => ""
          end /\
  (forall p, p ∈ unapproved fetches <->
             exists r, (p, r) ∈ fetches /\ approved r = false) /\
  ((forall p r, (p, r) ∈ fetches -> isOk r = true) ->
   joinLines (map errLine (labelErrs fetches)) = "" /\
   unapproved fetches <> []).
Proof.
  intros Hrun Hbug Hstatus Hgate fetches.
  destruct (verifyBug_ON_QA _ _ _ _ _ _ _ _ _ _ _ Hrun Hbug Hgate Hstatus)
    as (Hprs & Hv & _ & _).
  fold fetches in Hprs, Hv. injection Hv as Hs Hm.
  assert (Hne : unapproved fetches <> [] \/ labelErrs fetches <> []).
  { destruct (unapproved fetches) eqn:Hu; [|left; discriminate].
    destruct (labelErrs fetches) eqn:He; [|right; discriminate].
    rewrite compose_success in Hs. discriminate Hs. }
  rewrite (compose_failure _ _ _ _ Hne) in Hm. cbn [snd] in Hm.
  split; [exact Hprs|]. split; [exact Hm|].
  split; [intros p; apply unapproved_elem|].
  intros Hall. apply labelErrs_nil_iff in Hall. rewrite Hall in *.
  split; [reflexivity|]. now destruct Hne.
Qed.


(** C6: a bug fetched with status VERIFIED whose target release is the
    release of the tag: the body makes no call after the bug fetch (no
    comment fetch, no comment, no status update), leaves the error list
    as it was, and the loop goes on with the next entry. *)
Theorem VERIFIED_bug_is_left_alone
    (tagName tagRelease : string) (bugID : Z) (extPRs : list pr)
    (errs : list error) (w w' : W) (t : list event) (errs' : list error)
    (v : verdict) (bug : Bug) :
  verifyBug tagName tagRelease bugID extPRs errs w = (w', t, (errs', v)) ->
  bugFetches t = [(bugID, Ok bug)] ->
  Status bug = "VERIFIED" ->
  targetReleaseGate tagRelease bug = SameRelease ->
  t = [EvGetBug bugID (Ok bug)] /\
  commentFetches t = [] /\ creates t = [] /\ updates t = [] /\
  errs' = errs /\
  v = Skipped /\
  forall rest,
    verifyLoop tagName tagRelease ((bugID, extPRs) :: rest) errs w =
      let '(w'', t'', errs'') := verifyLoop tagName tagRelease rest errs w' in
      (w'', EvGetBug bugID (Ok bug) :: t'', errs'').
Proof.
  intros Hrun Hbug Hstatus Hgate.
  pose proof Hrun as Hshape.
  apply verifyBug_shape in Hshape
    as [(fetched & -> & -> & Hwhy)
       |(bug' & fetches & fc & cr & up & _ & -> & _ & Hnv & _)].
  - cbn in Hbug. injection Hbug as ->. rewrite Hgate in Hwhy.
    destruct Hwhy as [_ ->]. repeat split.
    intros rest. cbn [verifyLoop]. unfold bind at 1. rewrite Hrun. cbn [fst].
    destruct (verifyLoop tagName tagRelease rest errs w') as [[w'' t''] errs''].
    reflexivity.
  - exfalso.
    match type of Hbug with
    | bugFetches (decidedTrace _ _ _ ?s ?m _ _ _) = _ =>
        destruct (decidedTrace_projections bugID bug' fetches s m fc cr up)
          as (Hb & _)
    end.
    cbn zeta in Hb. rewrite Hb in Hbug. injection Hbug as <-.
    contradiction.
Qed.

End BodyProperties.

(** ** What the body writes *)

Lemma creates_elem (c : CommentCreate) (r : result Z) (t : list event) :
  EvCreateComment c r ∈ t -> c ∈ creates t.
Proof.
  induction t as [|e t IH]; intros Hin; [inversion Hin|].
  apply elem_of_cons in Hin as [<-|Hin]; [left|].
  destruct e; cbn; auto. right. auto.
Qed.

Lemma updates_elem (id : Z) (u : BugUpdate) (r : option error) (t : list event) :
  EvUpdateBug id u r ∈ t -> (id, u) ∈ updates t.
Proof.
  induction t as [|e t IH]; intros Hin; [inversion Hin|].
  apply elem_of_cons in Hin as [<-|Hin]; [left|].
  destruct e; cbn; auto. right. auto.
Qed.

Section Writes.

Context {W : Type} `{bzClient : BugzillaClient W} `{ghClient : GithubClient W}.

(** The fetches and the writes of one run of the body, by outcome. *)
Lemma verifyBug_summary (tagName tagRelease : string) (bugID : Z) (extPRs : list pr)
    (errs : list error) (w w' : W) (t : list event) (errs' : list error)
    (v : verdict) :
  verifyBug tagName tagRelease bugID extPRs errs w = (w', t, (errs', v)) ->
  exists fetchedBug,
    (bugFetches t = [(bugID, fetchedBug)] /\
     head t = Some (EvGetBug bugID fetchedBug)) /\
    linkFetchIDs t = [] /\
    match v with
    | Skipped => t = [EvGetBug bugID fetchedBug]
    | Decided success message =>
        exists bug fetched,
          fetchedBug = Ok bug /\
          targetReleaseGate tagRelease bug = SameRelease /\
          (success = true -> Status bug = "ON_QA") /\
          commentFetches t = [(bugID, fetched)] /\
          creates t =
            match fetched with
            | Ok comments =>
                if alreadyCommented message comments then []
                else [privateComment bugID message]
            | Err _ => []
            end /\
          updates t =
            match fetched with
            | Ok _ => if success then [(ID bug, verifiedUpdate)] else []
            | Err _ => []
            end
    end.
Proof.
  intros Hrun.
  apply verifyBug_shape in Hrun
    as [(fetched & -> & -> & _)
       |(bug & fetches & fc & cr & up & -> & -> & Hgate & _ & Hprs & _)].
  - exists fetched. repeat split.
  - cbn zeta in *.
    match goal with
    | |- context [decidedTrace _ _ _ ?s ?m _ _ _] =>
        destruct (decidedTrace_projections bugID bug fetches s m fc cr up)
          as (Hb & _ & Hl & Hc & Hcr & Hup)
    end.
    cbn zeta in *. exists (Ok bug). split; [split; [exact Hb | reflexivity]|].
    split; [exact Hl|].
    exists bug, fc. split; [reflexivity|]. split; [exact Hgate|].
    split; [|split; [exact Hc | split; [exact Hcr | exact Hup]]].
    intros Hs. destruct (String.eqb (Status bug) "ON_QA") eqn:Hqa.
    + now apply String.eqb_eq.
    + apply compose_success_iff in Hs as [_ Hs]. discriminate Hs.
Qed.

(** C2 (amended): for every bug handled by the body, a status update is
    issued if and only if the outcome is success and the comments of the
    bug were fetched (a failed comment fetch ends the body before the
    update). An outcome other than success never issues an update, and a
    failed [CreateComment] does not stop the update of a successful bug.
    When an update is issued it is the only one, it sets VERIFIED, and it
    is for the fetched bug, whose status is ON_QA. *)
Theorem update_iff_success_and_comments_fetched
    (tagName tagRelease : string) (bugID : Z) (extPRs : list pr)
    (errs : list error) (w w' : W) (t : list event) (errs' : list error)
    (v : verdict) :
  verifyBug tagName tagRelease bugID extPRs errs w = (w', t, (errs', v)) ->
  (updates t <> [] <->
   exists message comments,
     v = Decided true message /\ commentFetches t = [(bugID, Ok comments)]) /\
  (forall message, v = Decided false message -> updates t = []) /\
  (v = Skipped -> updates t = []) /\
  (forall message c err,
     v = Decided true message -> EvCreateComment c (Err err) ∈ t ->
     updates t <> []) /\
  (updates t <> [] ->
   exists bug,
     bugFetches t = [(bugID, Ok bug)] /\ Status bug = "ON_QA" /\
     updates t = [(ID bug, verifiedUpdate)]).
Proof.
  intros Hrun.
  apply verifyBug_summary in Hrun as (fetchedBug & [Hb _] & _ & Hv).
  destruct v as [|success message].
  - subst t. cbn. repeat split; try congruence.
    intros (? & ? & [=] & _).
  - destruct Hv as (bug & fetched & -> & _ & Hqa & Hc & Hcr & Hup).
    rewrite Hup, Hc. repeat split.
    + destruct fetched as [comments|err]; [|congruence].
      destruct success; [eauto | congruence].
    + intros (m & comments & [= -> ->] & [= ->]). discriminate.
    + intros m [= -> ->]. now destruct fetched.
    + discriminate.
    + intros m c err [= -> ->] Hin. apply creates_elem in Hin.
      rewrite Hcr in Hin. destruct fetched; [discriminate | inversion Hin].
    + intros Hne. exists bug. rewrite Hb.
      destruct fetched as [comments|err]; [|congruence].
      destruct success; [auto | congruence].
Qed.

End Writes.

(** ** Idempotence of comment posting *)

Section Idempotence.

Context {W : Type} `{bzClient : BugzillaClient W} `{ghClient : GithubClient W}.

Variable SemVer : Type.
Variable SemverParseTolerant : string -> result SemVer.
Variable SemverToMajorMinor : SemVer -> string.
Variable rangeOrder : gmap Z (list pr) -> list (Z * list pr).

(** What is asked of the tracker: a reading [shows w id message] ("the
    tracker shows a robot comment with this text on bug [id]") that no
    call destroys, that an accepted [CreateComment] establishes, and that
    a successful [GetComments] reports. *)
Variable shows : W -> Z -> string -> Prop.

Hypothesis shows_stable :
  forall w w', clientStep w w' ->
    forall id message, shows w id message -> shows w' id message.

Hypothesis shows_posted :
  forall c w w' n, CreateComment c w = (w', Ok n) ->
    shows w' (CommentCreate_ID c) (CommentCreate_Comment c).

Hypothesis shows_fetched :
  forall id w w' comments message,
    GetComments id w = (w', Ok comments) -> shows w id message ->
    alreadyCommented message comments = true.

Lemma postsOnce_nil (w : W) : postsOnce shows w [] w.
Proof. intros id m. cbn. repeat split; auto. congruence. Qed.

Lemma postsOnce_app (w w1 w2 : W) (t1 t2 : list event) :
  postsOnce shows w t1 w1 -> postsOnce shows w1 t2 w2 ->
  postsOnce shows w (t1 ++ t2) w2.
Proof.
  intros H1 H2 id m.
  destruct (H1 id m) as (Ha1 & Hb1 & Hc1), (H2 id m) as (Ha2 & Hb2 & Hc2).
  rewrite posted_app. split; [|split].
  - intros Hs. destruct (Ha1 Hs) as [-> Hs1]. destruct (Ha2 Hs1) as [-> Hs2].
    split; [reflexivity | exact Hs2].
  - destruct (posted id m t1) as [|c l] eqn:Hp1; [exact Hb2|].
    assert (shows w1 id m) as Hs1 by (apply Hc1; discriminate).
    destruct (Ha2 Hs1) as [-> _]. now rewrite app_nil_r.
  - intros Hne. destruct (posted id m t1) as [|c l] eqn:Hp1.
    + apply Hc2. exact Hne.
    + assert (shows w1 id m) as Hs1 by (apply Hc1; discriminate).
      now destruct (Ha2 Hs1).
Qed.

(** A call that posts nothing. *)
Lemma postsOnce_quiet (w w' : W) (e : event) :
  clientStep w w' ->
  (forall id m, posted id m [e] = []) ->
  postsOnce shows w [e] w'.
Proof.
  intros Hstep Hq id m. rewrite Hq. cbn. repeat split; eauto. congruence.
Qed.

Lemma idempotent_ret {A : Type} (a : A) : idempotent shows (ret a).
Proof. intros w w' t a' [= <- <- <-]. apply postsOnce_nil. Qed.

Lemma idempotent_bind {A B : Type} (m : M W A) (f : A -> M W B) :
  idempotent shows m -> (forall a, idempotent shows (f a)) ->
  idempotent shows (bind m f).
Proof.
  intros Hm Hf w w' t b. unfold bind.
  destruct (m w) as [[w1 t1] a] eqn:Em.
  destruct (f a w1) as [[w2 t2] b'] eqn:Ef.
  intros [= <- <- <-]. eapply postsOnce_app; [eapply Hm | eapply Hf]; eassumption.
Qed.

Lemma idempotent_call {A : Type} (op : W -> W * A) (ev : A -> event) :
  (forall w, clientStep w (fst (op w))) ->
  (forall r id m, posted id m [ev r] = []) ->
  idempotent shows (call op ev).
Proof.
  intros Hstep Hq w w' t a. unfold call.
  pose proof (Hstep w) as Hw. destruct (op w) as [w1 r].
  intros [= <- <- <-]. apply postsOnce_quiet; [exact Hw | apply Hq].
Qed.

Lemma idempotent_GetBug (id : Z) :
  idempotent shows (call (GetBug id) (EvGetBug id)).
Proof.
  apply idempotent_call; [|reflexivity].
  intros w. left. eauto.
Qed.

Lemma idempotent_GetExternalBugPRsOnBug (id : Z) :
  idempotent shows
    (call (GetExternalBugPRsOnBug id) (EvGetExternalBugPRsOnBug id)).
Proof.
  apply idempotent_call; [|reflexivity].
  intros w. right. left. eauto.
Qed.

Lemma idempotent_GetIssueLabels (p : pr) :
  idempotent shows
    (call (GetIssueLabels (org p) (repo p) (prNum p)) (EvGetIssueLabels p)).
Proof.
  apply idempotent_call; [|reflexivity].
  intros w. do 5 right. eauto.
Qed.

Lemma idempotent_UpdateBug (id : Z) (u : BugUpdate) :
  idempotent shows (call (UpdateBug id u) (EvUpdateBug id u)).
Proof.
  apply idempotent_call; [|reflexivity].
  intros w. do 4 right. left. eauto.
Qed.

Lemma idempotent_getPRsLoop (input : list Z) :
  forall bzPRs errs, idempotent shows (getPRsLoop input bzPRs errs).
Proof.
  induction input as [|bzID rest IH]; intros bzPRs errs; cbn [getPRsLoop].
  - apply idempotent_ret.
  - apply idempotent_bind; [apply idempotent_GetExternalBugPRsOnBug|].
    intros [extBugs|err]; [apply IH|].
    destruct (IsAccessDenied err); apply IH.
Qed.

Lemma idempotent_checkLabels (extPRs : list pr) :
  forall errs unlabeledPRs bugErrs,
    idempotent shows (checkLabels extPRs errs unlabeledPRs bugErrs).
Proof.
  induction extPRs as [|extPR rest IH]; intros errs unl bugErrs; cbn [checkLabels].
  - apply idempotent_ret.
  - apply idempotent_bind; [apply idempotent_GetIssueLabels|].
    intros [labels|err]; [destruct (hasLabel labels)|]; apply IH.
Qed.

Lemma idempotent_transition (success : bool) (bug : Bug) (errs : list error) :
  idempotent shows (transition success bug errs).
Proof.
  unfold transition. destruct success; [|apply idempotent_ret].
  apply idempotent_bind; [apply idempotent_UpdateBug|].
  intros [err|]; apply idempotent_ret.
Qed.

(** The comment fetch followed by the post it allows. *)
Lemma postsOnce_fetch_create (bugID : Z) (message : string) (w w1 w2 : W)
    (comments : list Comment) (created : result Z) :
  GetComments bugID w = (w1, Ok comments) ->
  alreadyCommented message comments = false ->
  CreateComment (privateComment bugID message) w1 = (w2, created) ->
  postsOnce shows w
    [EvGetComments bugID (Ok comments);
     EvCreateComment (privateComment bugID message) created] w2.
Proof.
  intros Hget Hac Hcr id m.
  assert (Hstep1 : clientStep w w1).
  { right. right. left. exists bugID. now rewrite Hget. }
  assert (Hstep2 : clientStep w1 w2).
  { do 3 right. left. exists (privateComment bugID message). now rewrite Hcr. }
  assert (Hkeep : shows w id m -> shows w2 id m) by eauto.
  cbn [posted privateComment CommentCreate_ID CommentCreate_Comment].
  destruct created as [n|err]; [|cbn; repeat split; auto; congruence].
  destruct (Z.eqb_spec bugID id) as [<-|Hid]; cbn [andb];
    [destruct (String.eqb_spec message m) as [<-|Hm]|];
    try (cbn; repeat split; auto; congruence).
  cbn. split; [|split; [lia|]].
  - intros Hs. rewrite (shows_fetched _ _ _ _ _ Hget Hs) in Hac. discriminate Hac.
  - intros _. apply (shows_posted _ _ _ _ Hcr).
Qed.

Lemma idempotent_conclude (tagName : string) (bugID : Z) (bug : Bug)
    (errs : list error) (unlabeledPRs : list pr) (bugErrs : list error) :
  idempotent shows (conclude tagName bugID bug errs unlabeledPRs bugErrs).
Proof.
  unfold conclude.
  destruct (compose tagName bug unlabeledPRs bugErrs) as [success message].
  destruct (negb (String.eqb message "")).
  2:{ apply idempotent_bind; [apply idempotent_transition|].
      intros errs1. apply idempotent_ret. }
  intros w w' t a. unfold bind, call, ret.
  destruct (GetComments bugID w) as [w1 [comments|err]] eqn:Hget.
  - assert (Hstep : clientStep w w1).
    { right. right. left. exists bugID. now rewrite Hget. }
    destruct (alreadyCommented message comments) eqn:Hac; cbn [negb].
    + destruct (transition success bug errs w1) as [[w2 t2] e2] eqn:Htr.
      intros [= <- <- <-]. rewrite app_nil_r. cbn [app].
      apply (postsOnce_app w w1 w2 [EvGetComments bugID (Ok comments)] t2).
      * apply postsOnce_quiet; [exact Hstep | reflexivity].
      * eapply idempotent_transition, Htr.
    + destruct (CreateComment _ w1) as [w2 created] eqn:Hcr.
      destruct created as [n|err];
        match goal with
        | |- context [transition success bug ?e w2] =>
            destruct (transition success bug e w2) as [[w3 t3] e3] eqn:Htr
        end;
        intros [= <- <- <-]; rewrite !app_nil_r; cbn [app];
        match goal with
        | |- postsOnce _ _ (?e1 :: ?e2 :: ?t) _ =>
            apply (postsOnce_app w w2 w3 [e1; e2] t)
        end;
        try (eapply postsOnce_fetch_create; eassumption);
        eapply idempotent_transition, Htr.
  - intros [= <- <- <-]. apply postsOnce_quiet; [|reflexivity].
    right. right. left. exists bugID. now rewrite Hget.
Qed.

Lemma idempotent_verifyBug (tagName tagRelease : string) (bugID : Z)
    (extPRs : list pr) (errs : list error) :
  idempotent shows (verifyBug tagName tagRelease bugID extPRs errs).
Proof.
  unfold verifyBug. apply idempotent_bind; [apply idempotent_GetBug|].
  intros [bug|err]; [|apply idempotent_ret].
  destruct (targetReleaseGate tagRelease bug); try apply idempotent_ret.
  destruct (negb (String.eqb (Status bug) "ON_QA")).
  - destruct (String.eqb (Status bug) "VERIFIED");
      [apply idempotent_ret | apply idempotent_conclude].
  - apply idempotent_bind; [apply idempotent_checkLabels|].
    intros [[errs1 unlabeledPRs] bugErrs]. apply idempotent_conclude.
Qed.

Lemma idempotent_verifyLoop (tagName tagRelease : string)
    (entries : list (Z * list pr)) :
  forall errs, idempotent shows (verifyLoop tagName tagRelease entries errs).
Proof.
  induction entries as [|[bugID extPRs] rest IH]; intros errs; cbn [verifyLoop].
  - apply idempotent_ret.
  - apply idempotent_bind; [apply idempotent_verifyBug|]. intros x. apply IH.
Qed.

Lemma idempotent_VerifyBugs (bugs : list Z) (tagName : string) :
  idempotent shows
    (VerifyBugs SemVer SemverParseTolerant SemverToMajorMinor rangeOrder
       bugs tagName).
Proof.
  unfold VerifyBugs.
  destruct (SemverParseTolerant tagName) as [tagSemVer|err];
    [|apply idempotent_ret].
  apply idempotent_bind; [apply idempotent_getPRsLoop|].
  intros [bzPRs errs]. apply idempotent_verifyLoop.
Qed.

(** C4: comment posting is idempotent. In one run of the body that fetched
    the comments of the bug, [CreateComment] is not called when the
    fetched list holds a comment whose text is the composed message and
    whose creator is one of the two robot accounts, and is called exactly
    once otherwise, for the bug of the entry, with the composed message
    and the private flag. Hence, over a tracker that keeps what it
    accepted, two invocations in a row get at most one comment with a
    given text accepted on a given bug, and a comment the tracker already
    shows is never posted again. *)
Theorem comment_posting_is_idempotent :
  (forall (tagName tagRelease : string) (bugID : Z) (extPRs : list pr)
          (errs : list error) (w w' : W) (t : list event) (errs' : list error)
          (v : verdict) (comments : list Comment),
      verifyBug tagName tagRelease bugID extPRs errs w = (w', t, (errs', v)) ->
      commentFetches t = [(bugID, Ok comments)] ->
      exists success message,
        v = Decided success message /\
        (alreadyCommented message comments = true <->
         exists comment, comment ∈ comments /\ Text comment = message /\
           (Creator comment = "openshift-bugzilla-robot" \/
            Creator comment = "openshift-bugzilla-robot@redhat.com")) /\
        creates t =
          if alreadyCommented message comments then []
          else [{| CommentCreate_ID := bugID;
                   CommentCreate_Comment := message;
                   IsPrivate := true |}]) /\
  (forall (bugs bugs' : list Z) (tagName tagName' : string) (w0 w1 w2 : W)
          (t1 t2 : list event) (errs1 errs2 : list error),
      VerifyBugs SemVer SemverParseTolerant SemverToMajorMinor rangeOrder
        bugs tagName w0 = (w1, t1, errs1) ->
      VerifyBugs SemVer SemverParseTolerant SemverToMajorMinor rangeOrder
        bugs' tagName' w1 = (w2, t2, errs2) ->
      forall (id : Z) (message : string),
        length (posted id message (t1 ++ t2)) <= 1 /\
        (posted id message t1 <> [] -> posted id message t2 = []) /\
        (shows w0 id message -> posted id message (t1 ++ t2) = [])).
Proof.
  split.
  - intros tagName tagRelease bugID extPRs errs w w' t errs' v comments Hrun Hc.
    apply verifyBug_summary in Hrun as (fetchedBug & _ & _ & Hv).
    destruct v as [|success message].
    { subst t. discriminate Hc. }
    destruct Hv as (bug & fetched & _ & _ & _ & Hc' & Hcr & _).
    rewrite Hc' in Hc. injection Hc as ->.
    exists success, message. split; [reflexivity|].
    split; [apply alreadyCommented_spec | exact Hcr].
  - intros bugs bugs' tagName tagName' w0 w1 w2 t1 t2 errs1 errs2 H1 H2 id message.
    apply idempotent_VerifyBugs in H1, H2.
    pose proof (postsOnce_app _ _ _ _ _ H1 H2 id message) as (Ha & Hb & _).
    split; [exact Hb|]. split; [|intros Hs; apply (Ha Hs)].
    intros Hne. destruct (H1 id message) as (_ & _ & Hc).
    destruct (H2 id message) as (Ha2 & _). apply Ha2, Hc, Hne.
Qed.

End Idempotence.

(** ** Status updates across the whole run *)

Lemma updatesFollowFetch_app (t1 t2 : list event) :
  updatesFollowFetch t1 -> updatesFollowFetch t2 -> updatesFollowFetch (t1 ++ t2).
Proof.
  intros H1 H2 pre id u r post Heq.
  apply app_eq_app in Heq as [l [[-> Hl]|[-> Hl]]].
  - destruct l as [|e l].
    + cbn in Hl. destruct (H2 [] id u r post (eq_sym Hl)) as (Hu & b & bug & Hin & _).
      inversion Hin.
    + injection Hl as <- ->. apply (H1 pre id u r l eq_refl).
  - destruct (H2 l id u r post Hl) as (Hu & b & bug & Hin & Hid & Hst).
    split; [exact Hu|]. exists b, bug. split; [|auto].
    rewrite bugFetches_app. apply elem_of_app. now right.
Qed.

Lemma updatesFollowFetch_no_updates (t : list event) :
  updates t = [] -> updatesFollowFetch t.
Proof.
  intros Hno pre id u r post ->.
  rewrite updates_app in Hno. cbn in Hno.
  now destruct (updates pre).
Qed.

Section WholeRun.

Context {W : Type} `{bzClient : BugzillaClient W} `{ghClient : GithubClient W}.

Variable SemVer : Type.
Variable SemverParseTolerant : string -> result SemVer.
Variable SemverToMajorMinor : SemVer -> string.
Variable rangeOrder : gmap Z (list pr) -> list (Z * list pr).

(** [range] visits every entry of the map once. *)
Hypothesis rangeOrder_perm :
  forall bzPRs, rangeOrder bzPRs ≡ₚ map_to_list bzPRs.

Lemma rangeOrder_keys (bzPRs : gmap Z (list pr)) :
  NoDup (map fst (rangeOrder bzPRs)) /\
  forall id, id ∈ map fst (rangeOrder bzPRs) <-> is_Some (bzPRs !! id).
Proof.
  split.
  - change (NoDup ((rangeOrder bzPRs).*1)).
    rewrite (rangeOrder_perm bzPRs). apply NoDup_fst_map_to_list.
  - intros id. rewrite list_elem_of_fmap. split.
    + intros ([id' prs] & -> & Hin). rewrite (rangeOrder_perm bzPRs) in Hin.
      apply elem_of_map_to_list in Hin. cbn. eauto.
    + intros [prs Hl]. exists (id, prs). split; [reflexivity|].
      rewrite (rangeOrder_perm bzPRs). now apply elem_of_map_to_list.
Qed.

Lemma verifyBug_updatesFollowFetch (tagName tagRelease : string) (bugID : Z)
    (extPRs : list pr) (errs : list error) (w w' : W) (t : list event)
    (errs' : list error) (v : verdict) :
  verifyBug tagName tagRelease bugID extPRs errs w = (w', t, (errs', v)) ->
  updatesFollowFetch t.
Proof.
  intros Hrun.
  pose proof (verifyBug_summary _ _ _ _ _ _ _ _ _ _ Hrun)
    as (fetchedBug & [_ Hhd] & _ & Hv).
  destruct v as [|success message].
  { apply updatesFollowFetch_no_updates. now subst t. }
  destruct Hv as (bug & fetched & -> & _ & Hqa & _ & _ & Hup).
  destruct fetched as [comments|err];
    [destruct success|]; try (now apply updatesFollowFetch_no_updates).
  intros pre id u r post Heq.
  assert ((id, u) ∈ updates t) as Hin.
  { apply (updates_elem id u r). rewrite Heq. apply elem_of_app. right. left. }
  rewrite Hup in Hin. apply list_elem_of_singleton in Hin as [= -> ->].
  split; [reflexivity|]. exists bugID, bug.
  split; [|split; [reflexivity | now apply Hqa]].
  rewrite Heq in Hhd. destruct pre as [|e pre]; [discriminate Hhd|].
  injection Hhd as ->. left.
Qed.

Lemma verifyBug_errs_grow (tagName tagRelease : string) (bugID : Z)
    (extPRs : list pr) (errs : list error) (w w' : W) (t : list event)
    (errs' : list error) (v : verdict) :
  verifyBug tagName tagRelease bugID extPRs errs w = (w', t, (errs', v)) ->
  exists more, errs' = errs ++ more.
Proof.
  intros Hrun.
  apply verifyBug_shape in Hrun
    as [(fetched & _ & _ & Hwhy)|(? & ? & ? & ? & ? & _ & _ & _ & _ & _ & Hm)].
  - destruct fetched as [bug|err].
    + destruct (targetReleaseGate tagRelease bug).
      * exists []. now rewrite app_nil_r.
      * destruct Hwhy as [more ->]. eauto.
      * exists []. now rewrite app_nil_r.
      * destruct Hwhy as [_ ->]. exists []. now rewrite app_nil_r.
    + destruct Hwhy as [more ->]. eauto.
  - destruct Hm as [more ->]. eauto.
Qed.

Lemma verifyLoop_spec (tagName tagRelease : string) (entries : list (Z * list pr)) :
  forall (errs : list error) (w w' : W) (t : list event) (errs' : list error),
    verifyLoop tagName tagRelease entries errs w = (w', t, errs') ->
    updatesFollowFetch t /\
    map fst (bugFetches t) = map fst entries /\
    linkFetchIDs t = [] /\
    exists more, errs' = errs ++ more.
Proof.
  induction entries as [|[bugID extPRs] rest IH]; intros errs w w' t errs' Hrun.
  - injection Hrun as <- <- <-. split; [now apply updatesFollowFetch_no_updates|].
    repeat split. exists []. now rewrite app_nil_r.
  - cbn [verifyLoop] in Hrun. unfold bind in Hrun.
    destruct (verifyBug tagName tagRelease bugID extPRs errs w)
      as [[w1 t1] [errs1 v]] eqn:Hbody.
    cbn [fst] in Hrun.
    destruct (verifyLoop tagName tagRelease rest errs1 w1) as [[w2 t2] errs2] eqn:Hrest.
    injection Hrun as <- <- <-.
    apply IH in Hrest as (Hu & Hb & Hl & more2 & ->).
    pose proof (verifyBug_updatesFollowFetch _ _ _ _ _ _ _ _ _ _ Hbody) as Hu1.
    pose proof (verifyBug_summary _ _ _ _ _ _ _ _ _ _ Hbody)
      as (fb & [Hb1 _] & Hl1 & _).
    destruct (verifyBug_errs_grow _ _ _ _ _ _ _ _ _ _ Hbody) as (more1 & ->).
    split; [now apply updatesFollowFetch_app|].
    rewrite bugFetches_app, linkFetchIDs_app, map_app, Hb1, Hb, Hl1, Hl.
    repeat split. exists (more1 ++ more2). now rewrite app_assoc.
Qed.

(** Every entry of the list is handled by one run of the body, whose
    calls are a segment of the trace of the loop. *)
Lemma verifyLoop_bodies (tagName tagRelease : string) (entries : list (Z * list pr)) :
  forall (errs : list error) (w w' : W) (t : list event) (errs' : list error),
    verifyLoop tagName tagRelease entries errs w = (w', t, errs') ->
    forall bugID extPRs, (bugID, extPRs) ∈ entries ->
      exists pre post errs0 w0 w1 t1 errs1 v,
        verifyBug tagName tagRelease bugID extPRs errs0 w0 = (w1, t1, (errs1, v)) /\
        t = pre ++ t1 ++ post.
Proof.
  induction entries as [|[bugID' extPRs'] rest IH];
    intros errs w w' t errs' Hrun bugID extPRs Hin; [inversion Hin|].
  cbn [verifyLoop] in Hrun. unfold bind in Hrun.
  destruct (verifyBug tagName tagRelease bugID' extPRs' errs w)
    as [[w1 t1] [errs1 v]] eqn:Hbody.
  cbn [fst] in Hrun.
  destruct (verifyLoop tagName tagRelease rest errs1 w1) as [[w2 t2] errs2] eqn:Hrest.
  injection Hrun as <- <- <-.
  apply elem_of_cons in Hin as [[= -> ->]|Hin].
  - exists [], t2, errs, w, w1, t1, errs1, v. split; [exact Hbody | reflexivity].
  - destruct (IH _ _ _ _ _ Hrest _ _ Hin)
      as (pre & post & e0 & u0 & u1 & ti & e1 & vi & Hi & ->).
    exists (t1 ++ pre), post, e0, u0, u1, ti, e1, vi.
    split; [exact Hi | now rewrite <- app_assoc].
Qed.

(** Every bug of the resolved map is handled by one run of the body. *)
Lemma VerifyBugs_bodies (bugs : list Z) (tagName : string) (tagSemVer : SemVer)
    (w w' : W) (t : list event) (errs : list error) :
  SemverParseTolerant tagName = Ok tagSemVer ->
  VerifyBugs SemVer SemverParseTolerant SemverToMajorMinor rangeOrder
    bugs tagName w = (w', t, errs) ->
  forall bugID extPRs,
    fst (snd (getPRs bugs w)) !! bugID = Some extPRs ->
    exists pre post errs0 w0 w1 t1 errs1 v,
      verifyBug tagName (SemverToMajorMinor tagSemVer) bugID extPRs errs0 w0
        = (w1, t1, (errs1, v)) /\
      t = pre ++ t1 ++ post.
Proof.
  intros Hparse Hrun bugID extPRs Hl.
  unfold VerifyBugs in Hrun. rewrite Hparse in Hrun. unfold bind in Hrun.
  destruct (getPRs bugs w) as [[w1 t1] [bzPRs errs1]] eqn:Hget.
  destruct (verifyLoop tagName _ (rangeOrder bzPRs) errs1 w1)
    as [[w2 t2] errs2] eqn:Hloop.
  injection Hrun as <- <- <-. cbn [fst snd] in Hl.
  assert (Hin : (bugID, extPRs) ∈ rangeOrder bzPRs).
  { rewrite (rangeOrder_perm bzPRs). now apply elem_of_map_to_list. }
  destruct (verifyLoop_bodies _ _ _ _ _ _ _ _ Hloop _ _ Hin)
    as (pre & post & e0 & u0 & u1 & ti & e1 & vi & Hi & ->).
  exists (t1 ++ pre), post, e0, u0, u1, ti, e1, vi.
  split; [exact Hi | now rewrite <- app_assoc].
Qed.

(** C3: in every run of [VerifyBugs], each status update sent to the
    tracker sets the status VERIFIED and is preceded by the fetch of the
    bug it is for, which showed the status ON_QA; [getPRs] sends no status
    update at all. *)
Theorem only_ON_QA_to_VERIFIED (bugs : list Z) (tagName : string) (w w' : W)
    (t : list event) (errs : list error) :
  VerifyBugs SemVer SemverParseTolerant SemverToMajorMinor rangeOrder
    bugs tagName w = (w', t, errs) ->
  (forall pre id u r post,
     t = pre ++ EvUpdateBug id u r :: post ->
     u = {| BugUpdate_Status := "VERIFIED" |} /\
     exists bugID bug,
       (bugID, Ok bug) ∈ bugFetches pre /\ ID bug = id /\ Status bug = "ON_QA") /\
  updates (snd (fst (getPRs bugs w))) = [].
Proof.
  intros Hrun. unfold VerifyBugs in Hrun.
  destruct (getPRs bugs w) as [[w1 t1] [bzPRs errs1]] eqn:Hget.
  pose proof (getPRs_spec _ _ _ _ _ _ Hget) as (_ & Hall & _).
  apply only_link_fetches in Hall as (_ & _ & _ & _ & _ & Hno).
  split; [|exact Hno].
  change (updatesFollowFetch t).
  destruct (SemverParseTolerant tagName) as [tagSemVer|err].
  - unfold bind in Hrun. rewrite Hget in Hrun.
    destruct (verifyLoop tagName _ (rangeOrder bzPRs) errs1 w1)
      as [[w2 t2] errs2] eqn:Hloop.
    injection Hrun as <- <- <-.
    apply verifyLoop_spec in Hloop as (Hu & _).
    apply updatesFollowFetch_app; [|exact Hu].
    now apply updatesFollowFetch_no_updates.
  - injection Hrun as <- <- <-. now apply updatesFollowFetch_no_updates.
Qed.

(** C5: when the tag does not parse, [VerifyBugs] returns a list holding
    exactly one error and calls neither client, whatever the bug list.
    Nothing else ends the batch early: when the tag parses, the links of
    every bug of the input are fetched, in order, and the record of every
    bug of the resolved map is fetched, once, in the order [range] visits
    the map. *)
Theorem tag_parse_failure_is_the_only_abort :
  (forall (bugs : list Z) (tagName : string) (err : error) (w : W),
      SemverParseTolerant tagName = Err err ->
      VerifyBugs SemVer SemverParseTolerant SemverToMajorMinor rangeOrder
        bugs tagName w =
      (w, [],
       [fmtError ("failed to parse tag `" +:+ tagName +:+ "` semver: "
                    +:+ Error err)])) /\
  (forall (bugs : list Z) (tagName : string) (tagSemVer : SemVer) (w w' : W)
          (t : list event) (errs : list error),
      SemverParseTolerant tagName = Ok tagSemVer ->
      VerifyBugs SemVer SemverParseTolerant SemverToMajorMinor rangeOrder
        bugs tagName w = (w', t, errs) ->
      linkFetchIDs t = bugs /\
      map fst (bugFetches t) =
        map fst (rangeOrder (fst (snd (getPRs bugs w)))) /\
      NoDup (map fst (bugFetches t)) /\
      forall id, id ∈ map fst (bugFetches t) <->
                 is_Some (fst (snd (getPRs bugs w)) !! id)).
Proof.
  split.
  - intros bugs tagName err w Hparse. unfold VerifyBugs. now rewrite Hparse.
  - intros bugs tagName tagSemVer w w' t errs Hparse Hrun.
    unfold VerifyBugs in Hrun. rewrite Hparse in Hrun. unfold bind in Hrun.
    destruct (getPRs bugs w) as [[w1 t1] [bzPRs errs1]] eqn:Hget.
    destruct (verifyLoop tagName _ (rangeOrder bzPRs) errs1 w1)
      as [[w2 t2] errs2] eqn:Hloop.
    injection Hrun as <- <- <-.
    apply verifyLoop_spec in Hloop as (_ & Hb & Hl & _).
    apply getPRs_spec in Hget as (Hids & Hall & _).
    apply only_link_fetches in Hall as (_ & Hb1 & _).
    rewrite linkFetchIDs_app, bugFetches_app, Hids, Hl, Hb1, app_nil_r.
    cbn [app fst snd]. rewrite Hb.
    split; [reflexivity|]. split; [reflexivity|]. apply rangeOrder_keys.
Qed.

(** C8: classification of the link fetches by [getPRs]. One link fetch is
    made per input bug ID, in input order, whatever the earlier fetches
    returned; the returned errors are, in order, one error per failed
    fetch that is not an access denial, so an access denial and a fetch
    that succeeds add none; and a bug is absent from the map exactly when
    none of its successful fetches had a link hosted on GitHub, the entry
    being otherwise the pull requests of those links. *)
Theorem getPRs_error_classification (input : list Z) (w w' : W) (t : list event)
    (bzPRs : gmap Z (list pr)) (errs : list error) :
  getPRs input w = (w', t, (bzPRs, errs)) ->
  linkFetchIDs t = input /\
  length t = length input /\
  errs = linkErrs t /\
  (forall id : Z, bzPRs !! id = None <-> fetchedPRs (linkFetches id t) = []) /\
  (forall (id : Z) prs, bzPRs !! id = Some prs ->
                        prs = fetchedPRs (linkFetches id t)).
Proof.
  intros Hrun. apply getPRs_spec in Hrun as (Hids & Hall & Herrs & Hmap & Hne).
  split; [exact Hids|]. split.
  { apply only_link_fetches in Hall as (Hlen & _). now rewrite <- Hlen, Hids. }
  split; [exact Herrs|]. split.
  - intros id. rewrite <- Hmap. split.
    + now intros ->.
    + destruct (bzPRs !! id) as [prs|] eqn:Hl; [|reflexivity].
      cbn. intros ->. now apply Hne in Hl.
  - intros id prs Hl. rewrite <- Hmap, Hl. reflexivity.
Qed.


End WholeRun.

(** ** The in-memory tracker keeps what it accepted *)

Lemma alreadyCommented_app (message : string) (l1 l2 : list Comment) :
  alreadyCommented message (l1 ++ l2) =
    alreadyCommented message l1 || alreadyCommented message l2.
Proof.
  induction l1 as [|c l1 IH]; [reflexivity|]. cbn.
  destruct (isOwnComment message c); [reflexivity | exact IH].
Qed.

Lemma Fake_shows_stable (w w' : Fake.World) :
  clientStep w w' ->
  forall bugID message, Fake.shows w bugID message -> Fake.shows w' bugID message.
Proof.
  intros Hstep bugID message Hs.
  destruct Hstep
    as [(i & <-)|[(i & <-)|[(i & <-)|[(c & <-)|[(i & u & <-)|(o & r & n & <-)]]]]];
    try exact Hs.
  - cbn. unfold Fake.createComment. destruct (Fake.postingDown w); [exact Hs|].
    unfold Fake.shows in *. cbn in *.
    destruct (decide (CommentCreate_ID c = bugID)) as [->|Hne].
    + rewrite lookup_insert_eq. cbn. rewrite alreadyCommented_app, Hs. reflexivity.
    + now rewrite lookup_insert_ne.
  - cbn. unfold Fake.updateBug. destruct (Fake.updatesDown w); [exact Hs|].
    destruct (Fake.bugs w !! i); exact Hs.
Qed.

Lemma Fake_shows_posted (c : CommentCreate) (w w' : Fake.World) (n : Z) :
  CreateComment c w = (w', Ok n) ->
  Fake.shows w' (CommentCreate_ID c) (CommentCreate_Comment c).
Proof.
  cbn. unfold Fake.createComment. destruct (Fake.postingDown w); [discriminate|].
  intros [= <- _]. unfold Fake.shows. cbn. rewrite lookup_insert_eq. cbn.
  rewrite alreadyCommented_app. cbn. unfold isOwnComment. cbn.
  rewrite String.eqb_refl. cbn. apply orb_true_r.
Qed.

Lemma Fake_shows_fetched (id : Z) (w w' : Fake.World) (comments : list Comment)
    (message : string) :
  GetComments id w = (w', Ok comments) -> Fake.shows w id message ->
  alreadyCommented message comments = true.
Proof.
  cbn. unfold Fake.getComments. destruct (Fake.commentsDown w); [discriminate|].
  intros [= _ <-] Hs. exact Hs.
Qed.

Lemma Fake_rangeOrder_perm (bzPRs : gmap Z (list pr)) :
  Fake.rangeOrder bzPRs ≡ₚ map_to_list bzPRs.
Proof. reflexivity. Qed.

(** ** Runs against the in-memory tracker *)

Lemma run_eta {W A B : Type} (r : W * list event * (A * B)) :
  r = (fst (fst r), snd (fst r), (fst (snd r), snd (snd r))).
Proof. destruct r as [[w t] [a b]]. reflexivity. Defined.

Lemma run_eta1 {W A : Type} (r : W * list event * A) :
  r = (fst (fst r), snd (fst r), snd r).
Proof. destruct r as [[w t] a]. reflexivity. Defined.

(** The label of an approved pull request is found by the fetch. *)
Lemma ON_QA_success_iff_all_approved_witness :
  let run := verifyBug "4.14.3" "4.14" 1 [Fake.pr5] [] Fake.approvedWorld in
  let t := snd (fst run) in
  bugFetches t = [(1%Z, Ok (Fake.bug1 "ON_QA" "4.14.0"))] /\
  (forall e, e ∈ t -> failedFetch e = false) /\
  map fst (labelFetches t) = [Fake.pr5] /\
  exists message : string,
    snd (snd run) = Decided true message /\
    updates t = [(1%Z, verifiedUpdate)] /\
    message = baseLine "4.14.3" +:+ successLine.
Proof.
  intros run t.
  assert (Hbug : bugFetches t = [(1%Z, Ok (Fake.bug1 "ON_QA" "4.14.0"))])
    by reflexivity.
  assert (Hok : forall e, e ∈ t -> failedFetch e = false).
  { intros e He. vm_compute in He.
    repeat (apply elem_of_cons in He as [->|He]; [reflexivity|]). inversion He. }
  split; [exact Hbug|]. split; [exact Hok|].
  destruct (ON_QA_success_iff_all_approved "4.14.3" "4.14" 1 [Fake.pr5] []
              Fake.approvedWorld _ _ _ _ (Fake.bug1 "ON_QA" "4.14.0")
              (run_eta run) Hbug eq_refl eq_refl Hok)
    as (Hprs & success & message & Hv & _ & Hsucc).
  split; [exact Hprs|]. exists message.
  assert (success = true) as -> by (vm_compute in Hv; congruence).
  destruct (Hsucc eq_refl) as [Hup Hm]. auto.
Defined.

(** C1 as stated fails: bug 1 is in the map, its fetched status is ON_QA,
    no fetch fails and its only pull request carries "qe-approved" on the
    code host, but its target release 4.13 is not the release 4.14 of the
    tag: the body stops at line 74, the outcome is not success and no
    status update is issued, by the body or by the whole run. *)
Lemma ON_QA_other_release_counterexample :
  let w := Fake.otherReleaseWorld in
  let run := verifyBug "4.14.3" "4.14" 1 [Fake.pr5] [] w in
  let t := snd (fst run) in
  Fake.SemverToMajorMinor {| Fake.Major := 4; Fake.Minor := 14; Fake.Patch := 3 |}
    = "4.14" /\
  fst (snd (getPRs [1%Z] w)) !! 1%Z = Some [Fake.pr5] /\
  (exists bug, bugFetches t = [(1%Z, Ok bug)] /\ Status bug = "ON_QA") /\
  (forall e, e ∈ t -> failedFetch e = false) /\
  (forall p, p ∈ [Fake.pr5] ->
     exists labels,
       snd (GetIssueLabels (org p) (repo p) (prNum p) w) = Ok labels /\
       exists label, label ∈ labels /\ github.Name label = "qe-approved") /\
  snd (snd run) = Skipped /\
  updates t = [] /\
  updates (snd (fst (Fake.VerifyBugs [1%Z] "4.14.3" w))) = [] /\
  ~ ((exists message, snd (snd run) = Decided true message) <->
     (forall p, p ∈ [Fake.pr5] ->
        exists labels,
          snd (GetIssueLabels (org p) (repo p) (prNum p) w) = Ok labels /\
          exists label, label ∈ labels /\ github.Name label = "qe-approved")).
Proof.
  intros w run t.
  assert (Hlabels : forall p, p ∈ [Fake.pr5] ->
     exists labels,
       snd (GetIssueLabels (org p) (repo p) (prNum p) w) = Ok labels /\
       exists label, label ∈ labels /\ github.Name label = "qe-approved").
  { intros p Hp. apply list_elem_of_singleton in Hp as ->.
    exists [Fake.qeApproved]. split; [reflexivity|].
    exists Fake.qeApproved. split; [left | reflexivity]. }
  split; [reflexivity|]. split; [reflexivity|].
  split; [eexists; split; reflexivity|]. split.
  { intros e He. vm_compute in He.
    repeat (apply elem_of_cons in He as [->|He]; [reflexivity|]). inversion He. }
  split; [exact Hlabels|]. split; [reflexivity|].
  split; [reflexivity|]. split; [reflexivity|].
  intros [_ Hback]. destruct (Hback Hlabels) as [message Hv].
  vm_compute in Hv. discriminate Hv.
Qed.

(** A successful bug whose comments were fetched is updated, even though
    the tracker refuses the comment. *)
Lemma update_iff_success_and_comments_fetched_witness :
  let w := Fake.withPostingDown Fake.approvedWorld in
  let run := verifyBug "4.14.3" "4.14" 1 [Fake.pr5] [] w in
  let t := snd (fst run) in
  let message := baseLine "4.14.3" +:+ successLine in
  snd (snd run) = Decided true message /\
  commentFetches t = [(1%Z, Ok [])] /\
  EvCreateComment (privateComment 1 message) (Err Fake.unavailable) ∈ t /\
  updates t = [(1%Z, verifiedUpdate)].
Proof.
  intros w run t message.
  destruct (update_iff_success_and_comments_fetched "4.14.3" "4.14" 1 [Fake.pr5] []
              w _ _ _ _ (run_eta run))
    as (_ & _ & _ & Hposting & Hup).
  assert (Hv : snd (snd run) = Decided true message) by reflexivity.
  assert (Hin : EvCreateComment (privateComment 1 message) (Err Fake.unavailable) ∈ t).
  { do 3 right. left. }
  split; [exact Hv|]. split; [reflexivity|]. split; [exact Hin|].
  destruct (Hup (Hposting _ _ _ Hv Hin)) as (bug & Hbug & _ & Hu).
  vm_compute in Hbug. injection Hbug as <-. exact Hu.
Defined.

(** C2 as stated fails: with the comment fetch failing, the outcome of
    bug 1 is success (ON_QA, release of the tag, its pull request
    approved), yet the body ends at line 131 and no status update is
    issued; the error of the comment fetch is all that is recorded. *)
Lemma success_without_update_counterexample :
  let w := Fake.withCommentsDown Fake.approvedWorld in
  let run := verifyBug "4.14.3" "4.14" 1 [Fake.pr5] [] w in
  let t := snd (fst run) in
  snd (snd run) = Decided true (baseLine "4.14.3" +:+ successLine) /\
  commentFetches t = [(1%Z, Err Fake.unavailable)] /\
  updates t = [] /\
  updates (snd (fst (Fake.VerifyBugs [1%Z] "4.14.3" w))) = [] /\
  length (snd (Fake.VerifyBugs [1%Z] "4.14.3" w)) = 1 /\
  ~ (updates t <> [] <-> exists message, snd (snd run) = Decided true message).
Proof.
  intros w run t. repeat (split; [reflexivity|]).
  intros [_ Hback]. apply Hback; [eexists; reflexivity | reflexivity].
Qed.

(** The one update of the run on the approved bug follows its fetch. *)
Lemma only_ON_QA_to_VERIFIED_witness :
  let run := Fake.VerifyBugs [1%Z] "4.14.3" Fake.approvedWorld in
  let t := snd (fst run) in
  exists pre r post,
    t = pre ++ EvUpdateBug 1 verifiedUpdate r :: post /\
    exists bugID bug,
      (bugID, Ok bug) ∈ bugFetches pre /\ ID bug = 1%Z /\ Status bug = "ON_QA".
Proof.
  intros run t.
  assert (Ht : t = firstn 5 t ++ EvUpdateBug 1 verifiedUpdate None :: [])
    by reflexivity.
  exists (firstn 5 t), None, []. split; [exact Ht|].
  destruct (only_ON_QA_to_VERIFIED Fake.SemVer Fake.SemverParseTolerant
              Fake.SemverToMajorMinor Fake.rangeOrder [1%Z] "4.14.3"
              Fake.approvedWorld _ _ _ (run_eta1 run)) as [Hall _].
  destruct (Hall _ _ _ _ _ Ht) as [_ Hfetch]. exact Hfetch.
Defined.

(** The second of two invocations in a row does not repeat the comment
    the first one got accepted. *)
Lemma comment_posting_is_idempotent_witness :
  let run1 := Fake.VerifyBugs [1%Z] "4.14.3" Fake.mixedWorld in
  let run2 := Fake.VerifyBugs [1%Z] "4.14.3" (fst (fst run1)) in
  let message :=
    baseLine "4.14.3" +:+ preamble +:+ prLine Fake.pr6 +:+ closingLine
      +:+ " by Quinn" in
  posted 1 message (snd (fst run1)) = [privateComment 1 message] /\
  posted 1 message (snd (fst run2)) = [] /\
  length (posted 1 message (snd (fst run1) ++ snd (fst run2))) <= 1.
Proof.
  intros run1 run2 message.
  destruct (comment_posting_is_idempotent Fake.SemVer Fake.SemverParseTolerant
              Fake.SemverToMajorMinor Fake.rangeOrder Fake.shows
              Fake_shows_stable Fake_shows_posted Fake_shows_fetched)
    as [_ Htwice].
  destruct (Htwice [1%Z] [1%Z] "4.14.3" "4.14.3" Fake.mixedWorld _ _ _ _ _ _
              (run_eta1 run1) (run_eta1 run2) 1%Z message)
    as (Hlen & Hsecond & _).
  assert (Hfirst : posted 1 message (snd (fst run1)) = [privateComment 1 message])
    by reflexivity.
  split; [exact Hfirst|]. split; [|exact Hlen].
  apply Hsecond. rewrite Hfirst. discriminate.
Defined.

(** A tag that is no version ends the run with one error and no call. *)
Lemma tag_parse_failure_is_the_only_abort_witness :
  Fake.SemverParseTolerant "not-a-semver"
    = Err (fmtError "No Major.Minor.Patch elements found") /\
  Fake.VerifyBugs [1%Z; 2%Z] "not-a-semver" Fake.approvedWorld =
    (Fake.approvedWorld, [],
     [fmtError "failed to parse tag `not-a-semver` semver: No Major.Minor.Patch elements found"]) /\
  Fake.SemverParseTolerant "4.14.3"
    = Ok {| Fake.Major := 4; Fake.Minor := 14; Fake.Patch := 3 |} /\
  linkFetchIDs (snd (fst (Fake.VerifyBugs [1%Z; 2%Z] "4.14.3" Fake.approvedWorld)))
    = [1%Z; 2%Z] /\
  map fst (bugFetches (snd (fst (Fake.VerifyBugs [1%Z; 2%Z] "4.14.3" Fake.approvedWorld))))
    = [1%Z].
Proof.
  destruct (tag_parse_failure_is_the_only_abort Fake.SemVer Fake.SemverParseTolerant
              Fake.SemverToMajorMinor Fake.rangeOrder Fake_rangeOrder_perm)
    as [Hfail Hparsed].
  split; [reflexivity|]. split.
  { exact (Hfail [1%Z; 2%Z] "not-a-semver" _ Fake.approvedWorld eq_refl). }
  split; [reflexivity|].
  destruct (Hparsed [1%Z; 2%Z] "4.14.3" _ Fake.approvedWorld _ _ _ eq_refl
              (run_eta1 (Fake.VerifyBugs [1%Z; 2%Z] "4.14.3" Fake.approvedWorld)))
    as (Hlinks & Hbugs & _).
  split; [exact Hlinks | exact Hbugs].
Defined.

(** A VERIFIED bug of the release: one call, the bug fetch. *)
Lemma VERIFIED_bug_is_left_alone_witness :
  let run := verifyBug "4.14.3" "4.14" 1 [Fake.pr5] [] Fake.verifiedWorld in
  bugFetches (snd (fst run)) = [(1%Z, Ok (Fake.bug1 "VERIFIED" "4.14.0"))] /\
  targetReleaseGate "4.14" (Fake.bug1 "VERIFIED" "4.14.0") = SameRelease /\
  snd (fst run) = [EvGetBug 1 (Ok (Fake.bug1 "VERIFIED" "4.14.0"))] /\
  fst (snd run) = [] /\
  snd (snd run) = Skipped.
Proof.
  intros run.
  destruct (VERIFIED_bug_is_left_alone "4.14.3" "4.14" 1 [Fake.pr5] []
              Fake.verifiedWorld _ _ _ _ (Fake.bug1 "VERIFIED" "4.14.0")
              (run_eta run) eq_refl eq_refl eq_refl)
    as (Ht & _ & _ & _ & Herrs & Hv & _).
  split; [reflexivity|]. split; [reflexivity|]. auto.
Defined.

(** Two pull requests, one approved: only the other is listed. *)
Lemma failure_message_layout_witness :
  let run := verifyBug "4.14.3" "4.14" 1 [Fake.pr5; Fake.pr6] [] Fake.mixedWorld in
  let message :=
    baseLine "4.14.3" +:+ preamble +:+ prLine Fake.pr6 +:+ closingLine
      +:+ " by Quinn" in
  snd (snd run) = Decided false message /\
  unapproved (labelFetches (snd (fst run))) = [Fake.pr6] /\
  message =
    baseLine "4.14.3" +:+ preamble
      +:+ joinLines (map prLine (unapproved (labelFetches (snd (fst run)))))
      +:+ joinLines (map errLine (labelErrs (labelFetches (snd (fst run)))))
      +:+ closingLine +:+ " by Quinn".
Proof.
  intros run message.
  assert (Hrun : verifyBug "4.14.3" "4.14" 1 [Fake.pr5; Fake.pr6] [] Fake.mixedWorld
                 = (fst (fst run), snd (fst run), (fst (snd run), Decided false message)))
    by reflexivity.
  destruct (failure_message_layout "4.14.3" "4.14" 1 [Fake.pr5; Fake.pr6] []
              Fake.mixedWorld _ _ _ message (Fake.bug1 "ON_QA" "4.14.0")
              Hrun eq_refl eq_refl eq_refl)
    as (_ & Hm & _ & _).
  split; [reflexivity|]. split; [reflexivity | exact Hm].
Defined.

(** Links with a pull request, an access denial, another failure, links
    without a pull request. *)
Lemma getPRs_error_classification_witness :
  let run := getPRs [1%Z; 2%Z; 3%Z; 4%Z] Fake.linksWorld in
  linkFetchIDs (snd (fst run)) = [1%Z; 2%Z; 3%Z; 4%Z] /\
  snd (snd run) = [linkErr 3 (clientError false "timeout")] /\
  fst (snd run) !! 1%Z = Some [Fake.pr5] /\
  fst (snd run) !! 2%Z = None /\
  fst (snd run) !! 3%Z = None /\
  fst (snd run) !! 4%Z = None.
Proof.
  intros run.
  destruct (getPRs_error_classification [1%Z; 2%Z; 3%Z; 4%Z] Fake.linksWorld
              _ _ _ _ (run_eta run))
    as (Hids & _ & Herrs & Hnone & _).
  split; [exact Hids|]. split; [exact Herrs|]. split; [reflexivity|].
  split; [|split]; apply Hnone; reflexivity.
Defined.



(** ** Splitting the target release *)

Lemma Split_sep (c : ascii) (s : string) :
  Split (String c s) c = "" :: Split s c.
Proof. cbn [Split]. now rewrite Ascii.eqb_refl. Qed.

Lemma Split_nonempty (s : string) (c : ascii) : Split s c <> [].
Proof.
  destruct s as [|a s]; cbn [Split]; [discriminate|].
  destruct (Ascii.eqb a c); [discriminate|].
  destruct (Split s c); discriminate.
Qed.

Lemma Split_other (a c : ascii) (s : string) :
  Ascii.eqb a c = false ->
  exists piece pieces,
    Split s c = piece :: pieces /\ Split (String a s) c = String a piece :: pieces.
Proof.
  intros Hne. cbn [Split]. rewrite Hne.
  destruct (Split s c) as [|piece pieces] eqn:Hs.
  - now apply Split_nonempty in Hs.
  - eauto.
Qed.

Lemma Join_cons (piece : string) (pieces : list string) (sep : ascii) :
  pieces <> [] ->
  Join (piece :: pieces) sep = piece +:+ String sep (Join pieces sep).
Proof. destruct pieces; [contradiction | reflexivity]. Qed.

Lemma Join_Split (s : string) (c : ascii) : Join (Split s c) c = s.
Proof.
  induction s as [|a s IH]; [reflexivity|].
  destruct (Ascii.eqb a c) eqn:Hac.
  - apply Ascii.eqb_eq in Hac as ->. rewrite Split_sep.
    rewrite Join_cons by apply Split_nonempty. now rewrite IH.
  - destruct (Split_other a c s Hac) as (piece & pieces & Hs & ->).
    rewrite Hs in IH. destruct pieces as [|q qs].
    + cbn in IH |- *. now rewrite IH.
    + rewrite Join_cons in IH |- * by discriminate.
      rewrite append_cons. now rewrite IH.
Qed.

Lemma Split_free (piece : string) (c : ascii) :
  containsByte c piece = false -> Split piece c = [piece].
Proof.
  induction piece as [|a piece IH]; [reflexivity|]. cbn [containsByte].
  intros [Hac Hrest]%orb_false_iff. cbn [Split]. rewrite Hac, (IH Hrest).
  reflexivity.
Qed.

Lemma Split_append_sep (piece s : string) (c : ascii) :
  containsByte c piece = false ->
  Split (piece +:+ String c s) c = piece :: Split s c.
Proof.
  induction piece as [|a piece IH]; [intros _; apply Split_sep|].
  cbn [containsByte]. intros [Hac Hrest]%orb_false_iff.
  rewrite append_cons. cbn [Split]. rewrite Hac, (IH Hrest). reflexivity.
Qed.

Lemma Split_Join (pieces : list string) (c : ascii) :
  pieces <> [] ->
  Forall (fun piece => containsByte c piece = false) pieces ->
  Split (Join pieces c) c = pieces.
Proof.
  induction pieces as [|piece pieces IH]; [contradiction|].
  intros _ Hfree. apply Forall_cons in Hfree as [Hpiece Hfree].
  destruct pieces as [|q qs].
  - now apply Split_free.
  - rewrite Join_cons by discriminate.
    rewrite Split_append_sep by exact Hpiece.
    rewrite IH; [reflexivity | discriminate | exact Hfree].
Qed.

Lemma Split_pieces_free (s : string) (c : ascii) :
  Forall (fun piece => containsByte c piece = false) (Split s c).
Proof.
  induction s as [|a s IH]; [repeat constructor|].
  destruct (Ascii.eqb a c) eqn:Hac.
  - apply Ascii.eqb_eq in Hac as ->. rewrite Split_sep.
    constructor; [reflexivity | exact IH].
  - destruct (Split_other a c s Hac) as (piece & pieces & Hs & ->).
    rewrite Hs in IH. apply Forall_cons in IH as [Hpiece Hrest].
    constructor; [|exact Hrest]. cbn [containsByte]. now rewrite Hac, Hpiece.
Qed.

Lemma Split_length (s : string) (c : ascii) :
  length (Split s c) = S (countByte c s).
Proof.
  induction s as [|a s IH]; [reflexivity|]. cbn [countByte].
  destruct (Ascii.eqb a c) eqn:Hac.
  - apply Ascii.eqb_eq in Hac as ->. rewrite Split_sep. cbn. now rewrite IH.
  - destruct (Split_other a c s Hac) as (piece & pieces & Hs & ->).
    rewrite Hs in IH. exact IH.
Qed.

Lemma countByte_zero (c : ascii) (s : string) :
  countByte c s = 0 <-> containsByte c s = false.
Proof.
  induction s as [|a s IH]; [split; reflexivity|]. cbn.
  destruct (Ascii.eqb a c); cbn; [split; discriminate | exact IH].
Qed.

(** X13: [Split] and [Join] are inverse to each other: joining the pieces
    of a string with the separator gives the string back, and splitting
    the join of a non-empty list of pieces that are free of the separator
    gives the pieces back. No piece of a split holds the separator, and
    there is one piece more than there are separators. *)
Theorem Split_Join_round_trip (c : ascii) :
  (forall s, Join (Split s c) c = s) /\
  (forall pieces,
      pieces <> [] ->
      Forall (fun piece => containsByte c piece = false) pieces ->
      Split (Join pieces c) c = pieces) /\
  (forall s, Forall (fun piece => containsByte c piece = false) (Split s c)) /\
  (forall s, length (Split s c) = S (countByte c s)).
Proof.
  split; [intros s; apply Join_Split|].
  split; [intros pieces; apply Split_Join|].
  split; [intros s; apply Split_pieces_free | intros s; apply Split_length].
Qed.

(** ** The release gate *)

Lemma append_sep_inj (c : ascii) (a b x y : string) :
  containsByte c a = false -> containsByte c b = false ->
  a +:+ String c x = b +:+ String c y -> a = b /\ x = y.
Proof.
  revert b. induction a as [|a0 a IH]; intros [|b0 b]; cbn [containsByte].
  - intros _ _ [= ->]. auto.
  - intros _ [Hb _]%orb_false_iff. rewrite append_cons. intros [= <- _].
    now rewrite Ascii.eqb_refl in Hb.
  - intros [Ha _]%orb_false_iff _. rewrite append_cons. intros [= -> _].
    now rewrite Ascii.eqb_refl in Ha.
  - intros [_ Ha]%orb_false_iff [_ Hb]%orb_false_iff.
    rewrite !append_cons. intros [= -> Heq].
    destruct (IH b Ha Hb Heq) as [-> ->]. auto.
Qed.

(** X2: the release gate, read on the target release of the bug. The bug
    counts as having no target release exactly when the list is empty or
    starts with "---", and the target release is rejected as malformed
    exactly when its first element is not "---" and holds no dot. *)
Theorem targetReleaseGate_classification (tagRelease : string) (bug : Bug) :
  (targetReleaseGate tagRelease bug = NoTargetRelease <->
   TargetRelease bug = [] \/
   exists others, TargetRelease bug = "---" :: others) /\
  (forall targetRelease0,
     targetReleaseGate tagRelease bug = MalformedTargetRelease targetRelease0 <->
     (exists others, TargetRelease bug = targetRelease0 :: others) /\
     targetRelease0 <> "---" /\
     containsByte "."%char targetRelease0 = false).
Proof.
  unfold targetReleaseGate.
  destruct (TargetRelease bug) as [|tr0 others].
  { split; [split; auto|]. intros tr. split; [discriminate|].
    intros [[o [=]] _]. }
  destruct (String.eqb_spec tr0 "---") as [->|Hne].
  { split; [split; eauto|]. intros tr. split; [discriminate|].
    intros ([o [= <- _]] & Hn & _). contradiction. }
  pose proof (Split_length tr0 "."%char) as Hlen.
  pose proof (Split_nonempty tr0 "."%char) as Hnil.
  destruct (Split tr0 "."%char) as [|major [|minor rest]]; [contradiction| |].
  - cbn in Hlen. injection Hlen as Hlen. symmetry in Hlen.
    apply countByte_zero in Hlen.
    split.
    + split; [discriminate|]. intros [[=]|[o [= -> _]]]. contradiction.
    + intros tr. split.
      * intros [= <-]. eauto.
      * intros ([o [= <- _]] & _ & _). reflexivity.
  - cbn in Hlen. injection Hlen as Hlen.
    assert (containsByte "."%char tr0 = true) as Hdot.
    { destruct (containsByte "."%char tr0) eqn:Hc; [reflexivity|].
      apply countByte_zero in Hc. lia. }
    split.
    + split.
      * destruct (String.eqb _ tagRelease); discriminate.
      * intros [[=]|[o [= -> _]]]. contradiction.
    + intros tr. split.
      * destruct (String.eqb _ tagRelease); discriminate.
      * intros ([o [= <- _]] & _ & Hfree). congruence.
Qed.

(** X3: the release gate compares on a prefix. When the release of the
    tag is [major.minor] with no dot inside [major] or [minor], a bug
    whose first target release is [targetRelease0] passes the gate exactly
    when [targetRelease0] is not "---" and is either the release of the
    tag or the release of the tag followed by a dot and anything. *)
Theorem SameRelease_iff_prefix (major minor tagRelease targetRelease0 : string)
    (others : list string) (bug : Bug) :
  tagRelease = major +:+ "." +:+ minor ->
  containsByte "."%char major = false ->
  containsByte "."%char minor = false ->
  TargetRelease bug = targetRelease0 :: others ->
  (targetReleaseGate tagRelease bug = SameRelease <->
   targetRelease0 <> "---" /\
   (targetRelease0 = tagRelease \/
    exists rest, targetRelease0 = tagRelease +:+ "." +:+ rest)).
Proof.
  intros Htag Hmajor Hminor Htr. unfold targetReleaseGate. rewrite Htr.
  assert (Hdot : forall a b, a +:+ "." +:+ b = a +:+ String "."%char b)
    by reflexivity.
  split.
  - destruct (String.eqb_spec targetRelease0 "---") as [->|Hne]; [discriminate|].
    pose proof (Join_Split targetRelease0 "."%char) as Hjoin.
    destruct (Split targetRelease0 "."%char) as [|a [|b rest]]; try discriminate.
    destruct (String.eqb_spec (a +:+ "." +:+ b) tagRelease) as [Heq|_];
      [|discriminate].
    intros _. split; [exact Hne|].
    destruct rest as [|r rs].
    + left. rewrite <- Hjoin, <- Heq. reflexivity.
    + right. exists (Join (r :: rs) "."%char).
      rewrite <- Hjoin, <- Heq.
      rewrite Join_cons by discriminate. rewrite Join_cons by discriminate.
      rewrite !Hdot, !append_assoc. reflexivity.
  - intros [Hne Hshape].
    destruct (String.eqb_spec targetRelease0 "---") as [|_]; [contradiction|].
    assert (exists rest,
              Split targetRelease0 "."%char = major :: minor :: rest)
      as [rest ->].
    { destruct Hshape as [->|[rest ->]]; rewrite Htag, !Hdot.
      - exists []. rewrite Split_append_sep by exact Hmajor.
        now rewrite Split_free.
      - exists (Split rest "."%char). rewrite append_assoc, append_cons.
        rewrite Split_append_sep by exact Hmajor.
        now rewrite Split_append_sep by exact Hminor. }
    rewrite Htag. now rewrite String.eqb_refl.
Qed.

(** ** The paths of the body that stop early *)

Section BodyPaths.

Context {W : Type} `{bzClient : BugzillaClient W} `{ghClient : GithubClient W}.

(** The bug fetch that opens the body. *)
Lemma verifyBug_fetched (tagName tagRelease : string) (bugID : Z) (extPRs : list pr)
    (errs : list error) (w w' : W) (t : list event) (errs' : list error)
    (v : verdict) (fetched : result Bug) :
  verifyBug tagName tagRelease bugID extPRs errs w = (w', t, (errs', v)) ->
  bugFetches t = [(bugID, fetched)] ->
  exists w1, GetBug bugID w = (w1, fetched).
Proof.
  intros Hrun Hbug.
  apply verifyBug_inv in Hrun as (fetched' & rest & w1 & Hget & -> & _).
  cbn in Hbug. injection Hbug as -> _. eauto.
Qed.

(** X1: a fetched bug that does not pass the release gate (no target
    release, a malformed one, or the release of another stream) is left
    alone: the bug fetch is the only call, nothing is decided, and the
    error list grows by the one error of line 67 when the target release
    is malformed and not at all otherwise. *)
Theorem gate_skips_the_bug
    (tagName tagRelease : string) (bugID : Z) (extPRs : list pr)
    (errs : list error) (w w' : W) (t : list event) (errs' : list error)
    (v : verdict) (bug : Bug) :
  verifyBug tagName tagRelease bugID extPRs errs w = (w', t, (errs', v)) ->
  bugFetches t = [(bugID, Ok bug)] ->
  targetReleaseGate tagRelease bug <> SameRelease ->
  t = [EvGetBug bugID (Ok bug)] /\
  v = Skipped /\
  errs' = errs ++ gateErrs tagRelease bug /\
  w' = fst (GetBug bugID w).
Proof.
  intros Hrun Hbug Hgate.
  destruct (verifyBug_fetched _ _ _ _ _ _ _ _ _ _ _ Hrun Hbug) as [w1 Hget].
  unfold verifyBug, bind, call, ret in Hrun. rewrite Hget in Hrun.
  unfold gateErrs. rewrite Hget.
  destruct (targetReleaseGate tagRelease bug) eqn:Hg; try contradiction;
    injection Hrun as <- <- <- <-; rewrite ?app_nil_r; auto.
Qed.

(** X4: when the bug cannot be fetched, the body records the error of line
    56 and does nothing else for the bug. *)
Theorem failed_bug_fetch_is_recorded
    (tagName tagRelease : string) (bugID : Z) (extPRs : list pr)
    (errs : list error) (w w' : W) (t : list event) (errs' : list error)
    (v : verdict) (err : error) :
  verifyBug tagName tagRelease bugID extPRs errs w = (w', t, (errs', v)) ->
  bugFetches t = [(bugID, Err err)] ->
  t = [EvGetBug bugID (Err err)] /\
  v = Skipped /\
  errs' = errs ++ [bugFetchErr bugID err] /\
  w' = fst (GetBug bugID w).
Proof.
  intros Hrun Hbug.
  destruct (verifyBug_fetched _ _ _ _ _ _ _ _ _ _ _ Hrun Hbug) as [w1 Hget].
  unfold verifyBug, bind, call, ret in Hrun. rewrite Hget in Hrun.
  rewrite Hget. injection Hrun as <- <- <- <-. auto.
Qed.

(** X5: a bug of the release whose status is neither ON_QA nor VERIFIED:
    no label is fetched and no status update is issued; the outcome is not
    success and the message gives the one reason "Bug is not in ON_QA
    status"; the comments are fetched once and the message is posted
    unless the robot already posted it. *)
Theorem other_status_is_a_policy_failure
    (tagName tagRelease : string) (bugID : Z) (extPRs : list pr)
    (errs : list error) (w w' : W) (t : list event) (errs' : list error)
    (v : verdict) (bug : Bug) :
  verifyBug tagName tagRelease bugID extPRs errs w = (w', t, (errs', v)) ->
  bugFetches t = [(bugID, Ok bug)] ->
  targetReleaseGate tagRelease bug = SameRelease ->
  Status bug <> "ON_QA" ->
  Status bug <> "VERIFIED" ->
  let message :=
    baseLine tagName +:+ preamble +:+ nl +:+ "- Bug is not in ON_QA status"
      +:+ closingLine +:+ qaSuffix bug in
  v = Decided false message /\
  labelFetches t = [] /\
  updates t = [] /\
  exists fetched,
    commentFetches t = [(bugID, fetched)] /\
    creates t =
      match fetched with
      | Ok comments =>
          if alreadyCommented message comments then []
          else [privateComment bugID message]
      | Err _ => []
      end.
Proof.
  intros Hrun Hbug Hgate Hqa Hver message.
  apply verifyBug_shape in Hrun
    as [(fetched & -> & -> & Hwhy)
       |(bug' & fetches & fc & cr & up & Hv & -> & _ & _ & Hprs & _)].
  { cbn in Hbug. injection Hbug as ->. rewrite Hgate in Hwhy.
    now destruct Hwhy. }
  cbn zeta in *.
  match type of Hbug with
  | bugFetches (decidedTrace _ _ _ ?s ?m _ _ _) = _ =>
      destruct (decidedTrace_projections bugID bug' fetches s m fc cr up)
        as (Hb & Hl & _ & Hc & Hcr & Hup)
  end.
  cbn zeta in *. rewrite Hb in Hbug. injection Hbug as ->.
  apply String.eqb_neq in Hqa. rewrite Hqa in *. subst fetches.
  assert (Hcompose : compose tagName bug [] [notOnQA] = (false, message)).
  { rewrite compose_failure by (right; discriminate).
    unfold message, notOnQA, errLine. cbn [map joinLines Error].
    now rewrite append_empty_r, !append_assoc. }
  rewrite Hcompose in *. cbn [fst snd] in *.
  split; [exact Hv|]. split; [exact Hl|]. split.
  { rewrite Hup. now destruct fc. }
  exists fc. split; [exact Hc | exact Hcr].
Qed.

End BodyPaths.

(** ** The error list *)

Lemma errorCount_app (tagRelease : string) (t1 t2 : list event) :
  errorCount tagRelease (t1 ++ t2)
    = errorCount tagRelease t1 + errorCount tagRelease t2.
Proof.
  induction t1 as [|e t1 IH]; [reflexivity|]. cbn [app errorCount].
  rewrite IH. lia.
Qed.

Lemma errorCount_links (tagRelease : string) (t : list event) :
  Forall (fun e => isLinkFetch e = true) t ->
  errorCount tagRelease t = length (linkErrs t).
Proof.
  induction 1 as [|e t He _ IH]; [reflexivity|].
  destruct e as [|id [extBugs|err]| | | |]; try discriminate He;
    cbn [errorCount recordsError linkErrs]; [exact IH|].
  destruct (IsAccessDenied err); cbn; now rewrite IH.
Qed.

Lemma errorCount_labels (tagRelease : string) (t : list event) :
  Forall (fun e => isLabelFetch e = true) t ->
  errorCount tagRelease t = length (labelErrs (labelFetches t)).
Proof.
  induction 1 as [|e t He _ IH]; [reflexivity|].
  destruct e as [| | | | |p [labels|err]]; try discriminate He;
    cbn [errorCount recordsError labelFetches labelErrs isOk negb];
    cbn; now rewrite IH.
Qed.

Section ErrorList.

Context {W : Type} `{bzClient : BugzillaClient W} `{ghClient : GithubClient W}.

Variable SemVer : Type.
Variable SemverParseTolerant : string -> result SemVer.
Variable SemverToMajorMinor : SemVer -> string.
Variable rangeOrder : gmap Z (list pr) -> list (Z * list pr).

Lemma transition_count (tagRelease : string) (success : bool) (bug : Bug)
    (errs : list error) (w w' : W) (t : list event) (errs' : list error) :
  transition success bug errs w = (w', t, errs') ->
  length errs' = length errs + errorCount tagRelease t.
Proof.
  unfold transition, bind, call, ret. destruct success.
  - destruct (UpdateBug (ID bug) _ w) as [w1 [err|]]; intros [= <- <- <-];
      rewrite ?length_app; cbn; lia.
  - intros [= <- <- <-]. cbn. lia.
Qed.

Lemma conclude_count (tagRelease tagName : string) (bugID : Z) (bug : Bug)
    (errs : list error) (unlabeledPRs : list pr) (bugErrs : list error)
    (w w' : W) (t : list event) (errs' : list error) (v : verdict) :
  conclude tagName bugID bug errs unlabeledPRs bugErrs w = (w', t, (errs', v)) ->
  length errs' = length errs + errorCount tagRelease t.
Proof.
  unfold conclude.
  destruct (compose tagName bug unlabeledPRs bugErrs) as [success message].
  unfold bind, call, ret.
  destruct (negb (String.eqb message "")).
  2:{ destruct (transition success bug errs w) as [[w1 t1] e1] eqn:Htr.
      intros [= <- <- <- <-]. rewrite app_nil_r.
      apply (transition_count tagRelease) in Htr. exact Htr. }
  destruct (GetComments bugID w) as [w1 [comments|err]].
  - destruct (alreadyCommented message comments); cbn [negb].
    + destruct (transition success bug errs w1) as [[w2 t2] e2] eqn:Htr.
      intros [= <- <- <- <-]. rewrite app_nil_r.
      apply (transition_count tagRelease) in Htr. cbn. exact Htr.
    + destruct (CreateComment _ w1) as [w2 [n|err]];
        match goal with
        | |- context [transition success bug ?e w2] =>
            destruct (transition success bug e w2) as [[w3 t3] e3] eqn:Htr
        end;
        intros [= <- <- <- <-]; rewrite !app_nil_r;
        apply (transition_count tagRelease) in Htr;
        rewrite ?length_app in Htr; cbn in Htr |- *; lia.
  - intros [= <- <- <- <-]. rewrite length_app. cbn. lia.
Qed.

Lemma verifyBug_count (tagName tagRelease : string) (bugID : Z) (extPRs : list pr)
    (errs : list error) (w w' : W) (t : list event) (errs' : list error)
    (v : verdict) :
  verifyBug tagName tagRelease bugID extPRs errs w = (w', t, (errs', v)) ->
  length errs' = length errs + errorCount tagRelease t.
Proof.
  intros Hrun.
  apply verifyBug_inv in Hrun as (fetched & rest & w1 & _ & -> & Hpath).
  cbn [errorCount recordsError]. destruct fetched as [bug|err].
  2:{ destruct Hpath as (-> & _ & more & ->). rewrite length_app. cbn. lia. }
  destruct (targetReleaseGate tagRelease bug) eqn:Hgate.
  - destruct Hpath as (-> & _ & -> & _). cbn. lia.
  - destruct Hpath as (-> & _ & more & ->). rewrite length_app. cbn. lia.
  - destruct Hpath as (-> & _ & -> & _). cbn. lia.
  - destruct (String.eqb (Status bug) "ON_QA").
    + destruct Hpath as (w2 & tl & e2 & u2 & b2 & tc & Hl & Hc & ->).
      apply checkLabels_spec in Hl as (_ & Hall & -> & _ & _).
      apply (conclude_count tagRelease) in Hc.
      rewrite errorCount_app, (errorCount_labels tagRelease tl Hall).
      rewrite length_app in Hc. lia.
    + destruct (String.eqb (Status bug) "VERIFIED").
      * destruct Hpath as (-> & _ & -> & _). cbn. lia.
      * apply (conclude_count tagRelease) in Hpath. lia.
Qed.

Lemma verifyLoop_count (tagName tagRelease : string) (entries : list (Z * list pr)) :
  forall (errs : list error) (w w' : W) (t : list event) (errs' : list error),
    verifyLoop tagName tagRelease entries errs w = (w', t, errs') ->
    length errs' = length errs + errorCount tagRelease t.
Proof.
  induction entries as [|[bugID extPRs] rest IH]; intros errs w w' t errs' Hrun.
  - injection Hrun as <- <- <-. cbn. lia.
  - cbn [verifyLoop] in Hrun. unfold bind in Hrun.
    destruct (verifyBug tagName tagRelease bugID extPRs errs w)
      as [[w1 t1] [errs1 v]] eqn:Hbody.
    cbn [fst] in Hrun.
    destruct (verifyLoop tagName tagRelease rest errs1 w1) as [[w2 t2] errs2] eqn:Hrest.
    injection Hrun as <- <- <-.
    apply IH in Hrest. apply verifyBug_count in Hbody.
    rewrite errorCount_app. lia.
Qed.

(** X6: the returned list holds exactly one error per call that went
    wrong. For a tag that parses, the number of errors [VerifyBugs]
    returns is the number of calls in its trace that failed, not counting
    link fetches refused with an access denial, plus the number of
    fetched bugs whose target release is malformed. In particular the
    list is empty exactly when there was no such call. *)
Theorem one_error_per_failed_call (bugs : list Z) (tagName : string)
    (tagSemVer : SemVer) (w w' : W) (t : list event) (errs : list error) :
  SemverParseTolerant tagName = Ok tagSemVer ->
  VerifyBugs SemVer SemverParseTolerant SemverToMajorMinor rangeOrder
    bugs tagName w = (w', t, errs) ->
  length errs = errorCount (SemverToMajorMinor tagSemVer) t /\
  (errs = [] <->
   forall e, e ∈ t -> recordsError (SemverToMajorMinor tagSemVer) e = false).
Proof.
  intros Hparse Hrun.
  unfold VerifyBugs in Hrun. rewrite Hparse in Hrun. unfold bind in Hrun.
  destruct (getPRs bugs w) as [[w1 t1] [bzPRs errs1]] eqn:Hget.
  destruct (verifyLoop tagName _ (rangeOrder bzPRs) errs1 w1)
    as [[w2 t2] errs2] eqn:Hloop.
  injection Hrun as <- <- <-.
  apply verifyLoop_count in Hloop.
  apply getPRs_spec in Hget as (_ & Hall & -> & _).
  assert (Hlen : length errs2
                 = errorCount (SemverToMajorMinor tagSemVer) (t1 ++ t2)).
  { rewrite errorCount_app, (errorCount_links _ t1 Hall). exact Hloop. }
  split; [exact Hlen|].
  rewrite <- length_zero_iff_nil, Hlen. clear.
  induction (t1 ++ t2) as [|e t IH]; cbn [errorCount].
  - split; [intros _ e He; inversion He | reflexivity].
  - destruct (recordsError (SemverToMajorMinor tagSemVer) e) eqn:He.
    + split; [discriminate|]. intros Hall.
      rewrite (Hall e) in He by left. discriminate He.
    + cbn. rewrite IH. split.
      * intros Hall e' [->|Hin]%elem_of_cons; auto.
      * intros Hall e' Hin. apply Hall. now right.
Qed.

End ErrorList.

(** ** Errors are only accumulated *)

Section Accumulation.

Context {W : Type} `{bzClient : BugzillaClient W} `{ghClient : GithubClient W}.

Lemma checkLabels_from_empty (extPRs : list pr) :
  forall (errs : list error) (unlabeledPRs : list pr) (bugErrs : list error) (w : W),
    checkLabels extPRs errs unlabeledPRs bugErrs w =
      let '(w', t, (e, u, b)) := checkLabels extPRs [] [] [] w in
      (w', t, (errs ++ e, unlabeledPRs ++ u, bugErrs ++ b)).
Proof.
  induction extPRs as [|extPR rest IH]; intros errs unl bugErrs w.
  - cbn. now rewrite !app_nil_r.
  - cbn [checkLabels]. unfold bind, call.
    destruct (GetIssueLabels (org extPR) (repo extPR) (prNum extPR) w) as [w1 r].
    destruct r as [labels|err]; [destruct (hasLabel labels)|];
      cbn [negb hasLabel app];
      repeat match goal with
             | |- context [checkLabels rest ?e ?u ?b w1] =>
                 lazymatch constr:((e, u, b)) with
                 | ([], [], []) => fail
                 | _ => rewrite (IH e u b w1)
                 end
             end;
      destruct (checkLabels rest [] [] [] w1) as [[w2 t2] [[e2 u2] b2]];
      cbn [app]; rewrite <- ?app_assoc; reflexivity.
Qed.

Lemma transition_from_empty (success : bool) (bug : Bug) (errs : list error) (w : W) :
  transition success bug errs w =
    let '(w', t, e) := transition success bug [] w in (w', t, errs ++ e).
Proof.
  unfold transition, bind, call, ret. destruct success.
  - destruct (UpdateBug (ID bug) _ w) as [w1 [err|]]; cbn;
      now rewrite ?app_nil_r.
  - now rewrite app_nil_r.
Qed.

Lemma conclude_from_empty (tagName : string) (bugID : Z) (bug : Bug)
    (errs : list error) (unlabeledPRs : list pr) (bugErrs : list error) (w : W) :
  conclude tagName bugID bug errs unlabeledPRs bugErrs w =
    let '(w', t, (e, v)) := conclude tagName bugID bug [] unlabeledPRs bugErrs w in
    (w', t, (errs ++ e, v)).
Proof.
  unfold conclude.
  destruct (compose tagName bug unlabeledPRs bugErrs) as [success message].
  unfold bind, call, ret.
  destruct (negb (String.eqb message "")).
  2:{ rewrite (transition_from_empty success bug errs w).
      destruct (transition success bug [] w) as [[w1 t1] e1]. reflexivity. }
  destruct (GetComments bugID w) as [w1 [comments|err]]; [|reflexivity].
  destruct (alreadyCommented message comments); cbn [negb].
  - rewrite (transition_from_empty success bug errs w1).
    destruct (transition success bug [] w1) as [[w2 t2] e2]. reflexivity.
  - destruct (CreateComment _ w1) as [w2 [n|err]].
    + rewrite (transition_from_empty success bug errs w2).
      destruct (transition success bug [] w2) as [[w3 t3] e3]. reflexivity.
    + rewrite (transition_from_empty success bug (errs ++ _) w2).
      rewrite (transition_from_empty success bug ([] ++ _) w2).
      destruct (transition success bug [] w2) as [[w3 t3] e3].
      cbn [app]. rewrite <- app_assoc. reflexivity.
Qed.

Lemma verifyBug_from_empty (tagName tagRelease : string) (bugID : Z)
    (extPRs : list pr) (errs : list error) (w : W) :
  verifyBug tagName tagRelease bugID extPRs errs w =
    let '(w', t, (e, v)) := verifyBug tagName tagRelease bugID extPRs [] w in
    (w', t, (errs ++ e, v)).
Proof.
  unfold verifyBug, bind, call, ret.
  destruct (GetBug bugID w) as [w1 [bug|err]]; [|reflexivity].
  destruct (targetReleaseGate tagRelease bug);
    try (now rewrite ?app_nil_r).
  destruct (negb (String.eqb (Status bug) "ON_QA")).
  - destruct (String.eqb (Status bug) "VERIFIED"); [now rewrite !app_nil_r|].
    rewrite (conclude_from_empty tagName bugID bug errs).
    destruct (conclude tagName bugID bug [] [] _ w1) as [[w2 t2] [e2 v2]].
    reflexivity.
  - rewrite (checkLabels_from_empty extPRs errs [] [] w1).
    destruct (checkLabels extPRs [] [] [] w1) as [[w2 t2] [[e2 u2] b2]].
    cbn [app].
    rewrite (conclude_from_empty tagName bugID bug (errs ++ e2)).
    rewrite (conclude_from_empty tagName bugID bug e2).
    destruct (conclude tagName bugID bug [] u2 b2 w2) as [[w3 t3] [e3 v3]].
    now rewrite <- app_assoc.
Qed.

Lemma verifyLoop_from_empty (tagName tagRelease : string)
    (entries : list (Z * list pr)) :
  forall (errs : list error) (w : W),
    verifyLoop tagName tagRelease entries errs w =
      let '(w', t, e) := verifyLoop tagName tagRelease entries [] w in
      (w', t, errs ++ e).
Proof.
  induction entries as [|[bugID extPRs] rest IH]; intros errs w.
  - cbn. now rewrite app_nil_r.
  - cbn [verifyLoop]. unfold bind.
    rewrite (verifyBug_from_empty tagName tagRelease bugID extPRs errs w).
    destruct (verifyBug tagName tagRelease bugID extPRs [] w)
      as [[w1 t1] [e1 v1]].
    cbn [fst]. rewrite (IH (errs ++ e1) w1), (IH e1 w1).
    destruct (verifyLoop tagName tagRelease rest [] w1) as [[w2 t2] e2].
    now rewrite <- app_assoc.
Qed.

(** X7: the errors recorded so far never steer the run. The body of the
    loop, and the loop itself, started with any error list make the same
    calls, leave the same world and take the same decisions as when
    started with the empty list, and return the list they were given
    followed by the errors of that run. *)
Theorem errors_are_only_accumulated (tagName tagRelease : string) :
  (forall (bugID : Z) (extPRs : list pr) (errs : list error) (w : W),
      verifyBug tagName tagRelease bugID extPRs errs w =
        let '(w', t, (e, v)) := verifyBug tagName tagRelease bugID extPRs [] w in
        (w', t, (errs ++ e, v))) /\
  (forall (entries : list (Z * list pr)) (errs : list error) (w : W),
      verifyLoop tagName tagRelease entries errs w =
        let '(w', t, e) := verifyLoop tagName tagRelease entries [] w in
        (w', t, errs ++ e)).
Proof.
  split.
  - intros. apply verifyBug_from_empty.
  - intros. apply verifyLoop_from_empty.
Qed.

End Accumulation.

(** ** What a run touches *)

Lemma touchedBugs_app (t1 t2 : list event) :
  touchedBugs (t1 ++ t2) = touchedBugs t1 ++ touchedBugs t2.
Proof. projection_app t1. Qed.

Lemma touchedBugs_links (t : list event) :
  Forall (fun e => isLinkFetch e = true) t -> touchedBugs t = [].
Proof.
  induction 1 as [|e t He _ IH]; [reflexivity|].
  destruct e; try discriminate He. exact IH.
Qed.

Lemma touchedBugs_labelCalls (fetches : list (pr * result (list github.Label))) :
  touchedBugs (labelCalls fetches) = [].
Proof. induction fetches as [|[p r] fetches IH]; [reflexivity | exact IH]. Qed.

Lemma linkFetches_no_links (id : Z) (t : list event) :
  linkFetchIDs t = [] -> linkFetches id t = [].
Proof.
  induction t as [|e t IH]; [reflexivity|].
  destruct e; cbn; try exact IH. discriminate.
Qed.

Lemma linkFetches_elem (id : Z) (t : list event) :
  linkFetches id t <> [] -> id ∈ linkFetchIDs t.
Proof.
  induction t as [|e t IH]; [now intros []|].
  destruct e as [|id' r| | | |]; cbn; try exact IH.
  destruct (Z.eqb_spec id' id) as [->|Hne]; [left|].
  intros H. right. auto.
Qed.

Lemma fetchedPRs_elem (p : pr) (rs : list (result (list ExternalBug))) :
  p ∈ fetchedPRs rs ->
  exists extBugs extBug,
    Ok extBugs ∈ rs /\ extBug ∈ extBugs /\
    URL extBug = "https://github.com/" /\
    p = {| org := Org extBug; repo := Repo extBug; prNum := Num extBug |}.
Proof.
  unfold fetchedPRs. intros Hin.
  apply list_elem_of_In, in_concat in Hin as (l & Hl & Hp).
  apply list_elem_of_In in Hl, Hp.
  apply list_elem_of_fmap in Hl as ([extBugs|err] & -> & Hr); [|inversion Hp].
  unfold githubPRs in Hp. apply list_elem_of_fmap in Hp as (extBug & -> & Hin).
  apply list_elem_of_filter in Hin as [Hurl Hin].
  exists extBugs, extBug. split; [exact Hr|]. split; [exact Hin|].
  split; [|reflexivity]. apply String.eqb_eq.
  destruct (String.eqb (URL extBug) "https://github.com/"); [reflexivity|].
  contradiction.
Qed.

Section Resolved.

Context {W : Type} `{bzClient : BugzillaClient W}.

(** X10: what [getPRs] puts in the map. Every key of the map is a bug ID
    of the input, no entry is empty, and every pull request of an entry
    was read off a link with URL "https://github.com/" that a successful
    link fetch for that bug returned, with the org, repo and number of
    the link. [getPRs] makes no call other than link fetches. *)
Theorem getPRs_entries_come_from_links (input : list Z) (w w' : W) (t : list event)
    (bzPRs : gmap Z (list pr)) (errs : list error) :
  getPRs input w = (w', t, (bzPRs, errs)) ->
  (forall id prs,
     bzPRs !! id = Some prs ->
     id ∈ input /\ prs <> [] /\
     forall p, p ∈ prs ->
       exists extBugs extBug,
         Ok extBugs ∈ linkFetches id t /\ extBug ∈ extBugs /\
         URL extBug = "https://github.com/" /\
         p = {| org := Org extBug; repo := Repo extBug; prNum := Num extBug |}) /\
  touchedBugs t = [] /\ labelFetches t = [] /\ updates t = [].
Proof.
  intros Hrun. apply getPRs_spec in Hrun as (Hids & Hall & _ & Hmap & Hne).
  split.
  - intros id prs Hl. pose proof (Hmap id) as Hprs. rewrite Hl in Hprs.
    cbn in Hprs. pose proof (Hne id prs Hl) as Hnil.
    split; [|split; [exact Hnil|]].
    + rewrite <- Hids. apply linkFetches_elem. intros Hno.
      rewrite Hno in Hprs. contradiction.
    + intros p Hp. apply fetchedPRs_elem. now rewrite <- Hprs.
  - split; [now apply touchedBugs_links|].
    apply only_link_fetches in Hall as (_ & _ & Hl & _ & _ & Hu). auto.
Qed.

End Resolved.

(** ** Where the status update sits in a trace *)

Lemma no_update_split (t pre post : list event) (id : Z) (u : BugUpdate)
    (r : option error) :
  updates t = [] -> t <> pre ++ EvUpdateBug id u r :: post.
Proof.
  intros Hno ->. rewrite updates_app in Hno. cbn in Hno.
  now destruct (updates pre).
Qed.

Lemma split_at_last_update (t : list event) :
  forall (e : event) (pre post : list event) (id : Z) (u : BugUpdate)
         (r : option error),
    updates t = [] ->
    t ++ [e] = pre ++ EvUpdateBug id u r :: post ->
    pre = t /\ post = [] /\ e = EvUpdateBug id u r.
Proof.
  induction t as [|x t IH]; intros e pre post id u r Hno Heq.
  - destruct pre as [|p pre]; cbn in Heq.
    + injection Heq as -> <-. auto.
    + injection Heq as _ Heq. now destruct pre.
  - destruct pre as [|p pre]; cbn in Heq.
    + injection Heq as -> _. discriminate Hno.
    + injection Heq as <- Heq.
      assert (updates t = []) as Hno' by (destruct x; cbn in Hno; congruence).
      destruct (IH _ _ _ _ _ _ Hno' Heq) as (-> & -> & ->). auto.
Qed.

Lemma decidedTrace_update_split (bugID : Z) (bug : Bug)
    (fetches : list (pr * result (list github.Label)))
    (success : bool) (message : string)
    (fetched : result (list Comment)) (created : result Z) (updated : option error)
    (pre post : list event) (id : Z) (u : BugUpdate) (r : option error) :
  decidedTrace bugID bug fetches success message fetched created updated
    = pre ++ EvUpdateBug id u r :: post ->
  post = [] /\ success = true /\ id = ID bug /\ u = verifiedUpdate /\
  exists comments,
    fetched = Ok comments /\
    pre = beforeUpdate bugID bug fetches message comments created.
Proof.
  intros Heq.
  destruct (decidedTrace_projections bugID bug fetches success message
              fetched created updated) as (_ & _ & _ & _ & _ & Hup).
  cbn zeta in Hup.
  destruct fetched as [comments|err];
    [destruct success|]; try (now apply no_update_split in Heq).
  assert (Hshape :
    decidedTrace bugID bug fetches true message (Ok comments) created updated
    = beforeUpdate bugID bug fetches message comments created
        ++ [EvUpdateBug (ID bug) verifiedUpdate updated]).
  { unfold decidedTrace, beforeUpdate, concludeTrace. cbn [app].
    rewrite <- !app_assoc. reflexivity. }
  rewrite Hshape in Heq.
  apply split_at_last_update in Heq as (-> & -> & [= <- <- _]).
  - split; [reflexivity|]. repeat split. eauto.
  - unfold beforeUpdate. cbn [updates]. rewrite updates_app.
    destruct (labelCalls_projections fetches) as (_ & _ & _ & _ & _ & ->).
    now destruct (alreadyCommented message comments).
Qed.

Lemma updatesAreBacked_app (t1 t2 : list event) :
  updatesAreBacked t1 -> updatesAreBacked t2 -> updatesAreBacked (t1 ++ t2).
Proof.
  intros H1 H2 pre id u r post Heq.
  apply app_eq_app in Heq as [l [[-> Hl]|[-> Hl]]].
  - destruct l as [|e l].
    + cbn in Hl. destruct (H2 [] id u r post (eq_sym Hl)) as (b & ? & ? & s & Hnil & _).
      now destruct b.
    + injection Hl as <- ->. apply (H1 pre id u r l eq_refl).
  - destruct (H2 l id u r post Hl)
      as (before & bugID & bug & since & -> & Hrest).
    exists (t1 ++ before), bugID, bug, since.
    split; [now rewrite <- app_assoc | exact Hrest].
Qed.

Lemma updatesAreBacked_no_updates (t : list event) :
  updates t = [] -> updatesAreBacked t.
Proof.
  intros Hno pre id u r post Heq. now apply no_update_split in Heq.
Qed.

Lemma fetchedPRs_nonempty (rs : list (result (list ExternalBug))) :
  fetchedPRs rs <> [] ->
  exists extBugs, Ok extBugs ∈ rs /\ githubPRs extBugs <> [].
Proof.
  induction rs as [|[extBugs|err] rs IH]; [now intros []| |].
  - change (fetchedPRs (Ok extBugs :: rs))
      with (githubPRs extBugs ++ fetchedPRs rs).
    destruct (githubPRs extBugs) as [|p l] eqn:Hg.
    + intros Hne. destruct (IH Hne) as (x & Hin & Hx).
      exists x. split; [now right | exact Hx].
    + intros _. exists extBugs. split; [left | now rewrite Hg].
  - intros Hne. destruct (IH Hne) as (x & Hin & Hx).
    exists x. split; [now right | exact Hx].
Qed.

Lemma concludeTrace_touched (bugID : Z) (bug : Bug) (success : bool)
    (message : string) (fetched : result (list Comment)) (created : result Z)
    (updated : option error) (id : Z) :
  id ∈ touchedBugs (concludeTrace bugID bug success message fetched created updated) ->
  id = bugID.
Proof.
  unfold concludeTrace. destruct fetched as [comments|err].
  - destruct (alreadyCommented message comments), success; cbn;
      intros Hin; repeat (apply elem_of_cons in Hin as [->|Hin]; [reflexivity|]);
      inversion Hin.
  - cbn. intros Hin. apply list_elem_of_singleton in Hin. exact Hin.
Qed.

(** ** Properties of the whole run *)

Section RunProperties.

Context {W : Type} `{bzClient : BugzillaClient W} `{ghClient : GithubClient W}.

Variable SemVer : Type.
Variable SemverParseTolerant : string -> result SemVer.
Variable SemverToMajorMinor : SemVer -> string.
Variable rangeOrder : gmap Z (list pr) -> list (Z * list pr).

(** [range] visits every entry of the map once. *)
Hypothesis rangeOrder_perm :
  forall bzPRs, rangeOrder bzPRs ≡ₚ map_to_list bzPRs.

Lemma verifyBug_touched (tagName tagRelease : string) (bugID : Z) (extPRs : list pr)
    (errs : list error) (w w' : W) (t : list event) (errs' : list error)
    (v : verdict) (id : Z) :
  verifyBug tagName tagRelease bugID extPRs errs w = (w', t, (errs', v)) ->
  id ∈ touchedBugs t -> id = bugID.
Proof.
  intros Hrun.
  apply verifyBug_shape in Hrun
    as [(fetched & _ & -> & _)|(bug & fetches & fc & cr & up & _ & -> & _)].
  - cbn. intros Hin. now apply list_elem_of_singleton in Hin.
  - cbn zeta. unfold decidedTrace. cbn [touchedBugs].
    rewrite touchedBugs_app, touchedBugs_labelCalls. cbn [app].
    intros [->|Hin]%elem_of_cons; [reflexivity|].
    now apply concludeTrace_touched in Hin.
Qed.

Lemma verifyBug_creates (tagName tagRelease : string) (bugID : Z) (extPRs : list pr)
    (errs : list error) (w w' : W) (t : list event) (errs' : list error)
    (v : verdict) :
  verifyBug tagName tagRelease bugID extPRs errs w = (w', t, (errs', v)) ->
  creates t = [] \/ exists message, creates t = [privateComment bugID message].
Proof.
  intros Hrun.
  apply verifyBug_summary in Hrun as (fetchedBug & _ & _ & Hv).
  destruct v as [|success message]; [left; now subst t|].
  destruct Hv as (bug & fetched & _ & _ & _ & _ & -> & _).
  destruct fetched as [comments|err]; [|now left].
  destruct (alreadyCommented message comments); [now left | right; eauto].
Qed.

Lemma verifyBug_updatesAreBacked (tagName tagRelease : string) (bugID : Z)
    (extPRs : list pr) (errs : list error) (w w' : W) (t : list event)
    (errs' : list error) (v : verdict) :
  extPRs <> [] ->
  verifyBug tagName tagRelease bugID extPRs errs w = (w', t, (errs', v)) ->
  updatesAreBacked t.
Proof.
  intros Hprs Hrun.
  apply verifyBug_shape in Hrun
    as [(fetched & _ & -> & _)
       |(bug & fetches & fc & cr & up & _ & -> & _ & _ & Hfetches & _)].
  { now apply updatesAreBacked_no_updates. }
  cbn zeta in *. intros pre id u r post Heq.
  apply decidedTrace_update_split in Heq
    as (_ & Hs & -> & _ & comments & _ & ->).
  destruct (String.eqb (Status bug) "ON_QA") eqn:Hqa.
  2:{ apply compose_success_iff in Hs as [_ Hs]. discriminate Hs. }
  apply compose_success_iff in Hs as [Hun _].
  exists [], bugID, bug,
    (labelCalls fetches
       ++ EvGetComments bugID (Ok comments)
       :: (if alreadyCommented
                (snd (compose tagName bug (unapproved fetches) (labelErrs fetches)))
                comments
           then []
           else [EvCreateComment
                   (privateComment bugID
                      (snd (compose tagName bug (unapproved fetches)
                              (labelErrs fetches)))) cr])).
  split; [reflexivity|]. split; [reflexivity|].
  split; [now apply String.eqb_eq|].
  destruct (labelCalls_projections fetches) as (Hl & Hb & _).
  rewrite bugFetches_app, labelFetches_app, Hl, Hb.
  match goal with
  | |- context [if ?c then _ else _] => destruct c
  end; cbn; rewrite app_nil_r;
    (split; [reflexivity|]); (split; [|now apply unapproved_nil_iff]);
    intros Hnil; rewrite Hnil in Hfetches; now symmetry in Hfetches.
Qed.

Lemma verifyLoop_run_properties (tagName tagRelease : string)
    (entries : list (Z * list pr)) :
  forall (errs : list error) (w w' : W) (t : list event) (errs' : list error),
    verifyLoop tagName tagRelease entries errs w = (w', t, errs') ->
    (forall id, id ∈ touchedBugs t -> id ∈ map fst entries) /\
    map CommentCreate_ID (creates t) `sublist_of` map fst entries /\
    Forall (fun c => IsPrivate c = true) (creates t) /\
    (Forall (fun entry => snd entry <> []) entries -> updatesAreBacked t).
Proof.
  induction entries as [|[bugID extPRs] rest IH]; intros errs w w' t errs' Hrun.
  - injection Hrun as <- <- <-. cbn. split; [intros id Hin; inversion Hin|].
    split; [constructor|]. split; [constructor|].
    intros _. now apply updatesAreBacked_no_updates.
  - cbn [verifyLoop] in Hrun. unfold bind in Hrun.
    destruct (verifyBug tagName tagRelease bugID extPRs errs w)
      as [[w1 t1] [errs1 v]] eqn:Hbody.
    cbn [fst] in Hrun.
    destruct (verifyLoop tagName tagRelease rest errs1 w1) as [[w2 t2] errs2] eqn:Hrest.
    injection Hrun as <- <- <-.
    apply IH in Hrest as (Htouch & Hsub & Hpriv & Hback).
    rewrite touchedBugs_app, creates_app, map_app.
    split; [|split; [|split]].
    + intros id [Hin|Hin]%elem_of_app.
      * apply (verifyBug_touched _ _ _ _ _ _ _ _ _ _ _ Hbody) in Hin as ->. left.
      * right. auto.
    + destruct (verifyBug_creates _ _ _ _ _ _ _ _ _ _ Hbody) as [->|[m ->]].
      * cbn. now apply sublist_cons.
      * cbn. now apply sublist_skip.
    + apply Forall_app. split; [|exact Hpriv].
      destruct (verifyBug_creates _ _ _ _ _ _ _ _ _ _ Hbody) as [->|[m ->]];
        repeat constructor.
    + intros [Hne Hall]%Forall_cons. cbn [snd] in Hne.
      apply updatesAreBacked_app; [|auto].
      eapply verifyBug_updatesAreBacked; eassumption.
Qed.

Lemma rangeOrder_entries_nonempty (bzPRs : gmap Z (list pr)) :
  noEmptyEntry bzPRs ->
  Forall (fun entry => snd entry <> []) (rangeOrder bzPRs).
Proof.
  intros Hne. apply Forall_forall. intros [id prs] Hin. cbn.
  rewrite (rangeOrder_perm bzPRs) in Hin.
  apply elem_of_map_to_list in Hin. now apply Hne in Hin.
Qed.

Lemma compose_opens (tagName : string) (bug : Bug)
    (unlabeledPRs : list pr) (bugErrs : list error) :
  exists rest,
    snd (compose tagName bug unlabeledPRs bugErrs) = baseLine tagName +:+ nl +:+ rest.
Proof.
  destruct (decide (unlabeledPRs = [] /\ bugErrs = [])) as [[-> ->]|Hne].
  - rewrite compose_success. eexists. reflexivity.
  - rewrite compose_failure.
    + unfold preamble. cbn [snd]. eexists. rewrite !append_assoc. reflexivity.
    + destruct unlabeledPRs; [|left; discriminate].
      destruct bugErrs; [|right; discriminate]. now destruct Hne.
Qed.

(** X8: on the empty bug list [VerifyBugs] calls neither client and leaves
    the world as it is; it returns no error when the tag parses and the
    one parse error otherwise. *)
Theorem empty_input_makes_no_call (tagName : string) (w : W) :
  VerifyBugs SemVer SemverParseTolerant SemverToMajorMinor rangeOrder
    [] tagName w =
  (w, [],
   match SemverParseTolerant tagName with
   | Ok _ => []
   | Err err =>
       [fmtError ("failed to parse tag `" +:+ tagName +:+ "` semver: "
                    +:+ Error err)]
   end).
Proof.
  unfold VerifyBugs. destruct (SemverParseTolerant tagName); [|reflexivity].
  assert (rangeOrder (∅ : gmap Z (list pr)) = []) as Hempty.
  { apply Permutation_nil_r. rewrite rangeOrder_perm.
    now rewrite map_to_list_empty. }
  unfold bind, getPRs. cbn [getPRsLoop]. unfold ret. rewrite Hempty.
  reflexivity.
Qed.

(** X9: no bug is moved to VERIFIED without an approved pull request. In
    every run of [VerifyBugs], each status update comes after the fetch of
    its bug, which showed ON_QA, and between that fetch and the update at
    least one label fetch was made and every label fetch made showed
    "qe-approved". *)
Theorem verified_only_with_approved_pull_requests (bugs : list Z) (tagName : string)
    (w w' : W) (t : list event) (errs : list error) :
  VerifyBugs SemVer SemverParseTolerant SemverToMajorMinor rangeOrder
    bugs tagName w = (w', t, errs) ->
  forall pre id u r post,
    t = pre ++ EvUpdateBug id u r :: post ->
    exists before bugID bug since,
      pre = before ++ EvGetBug bugID (Ok bug) :: since /\
      ID bug = id /\ Status bug = "ON_QA" /\
      bugFetches since = [] /\
      labelFetches since <> [] /\
      forall p labels, (p, labels) ∈ labelFetches since -> approved labels = true.
Proof.
  intros Hrun. change (updatesAreBacked t).
  unfold VerifyBugs in Hrun.
  destruct (SemverParseTolerant tagName) as [tagSemVer|err].
  2:{ injection Hrun as <- <- <-. now apply updatesAreBacked_no_updates. }
  unfold bind in Hrun.
  destruct (getPRs bugs w) as [[w1 t1] [bzPRs errs1]] eqn:Hget.
  destruct (verifyLoop tagName _ (rangeOrder bzPRs) errs1 w1)
    as [[w2 t2] errs2] eqn:Hloop.
  injection Hrun as <- <- <-.
  apply getPRs_spec in Hget as (_ & Hall & _ & _ & Hne).
  apply only_link_fetches in Hall as (_ & _ & _ & _ & _ & Hno).
  apply verifyLoop_run_properties in Hloop as (_ & _ & _ & Hback).
  apply updatesAreBacked_app; [now apply updatesAreBacked_no_updates|].
  apply Hback, rangeOrder_entries_nonempty, Hne.
Qed.

(** X11: only bugs with a pull request are touched. In every run of
    [VerifyBugs], a bug that is fetched, has its comments fetched or gets
    a comment is a bug for which a link fetch of this run succeeded and
    returned at least one link hosted on GitHub. *)
Theorem only_linked_bugs_are_touched (bugs : list Z) (tagName : string)
    (w w' : W) (t : list event) (errs : list error) :
  VerifyBugs SemVer SemverParseTolerant SemverToMajorMinor rangeOrder
    bugs tagName w = (w', t, errs) ->
  forall id, id ∈ touchedBugs t ->
    id ∈ bugs /\
    exists extBugs, Ok extBugs ∈ linkFetches id t /\ githubPRs extBugs <> [].
Proof.
  intros Hrun id Hin. unfold VerifyBugs in Hrun.
  destruct (SemverParseTolerant tagName) as [tagSemVer|err].
  2:{ injection Hrun as <- <- <-. inversion Hin. }
  unfold bind in Hrun.
  destruct (getPRs bugs w) as [[w1 t1] [bzPRs errs1]] eqn:Hget.
  destruct (verifyLoop tagName _ (rangeOrder bzPRs) errs1 w1)
    as [[w2 t2] errs2] eqn:Hloop.
  injection Hrun as <- <- <-.
  apply getPRs_spec in Hget as (Hids & Hall & _ & Hmap & Hne).
  apply verifyLoop_run_properties in Hloop as (Htouch & _).
  rewrite touchedBugs_app, (touchedBugs_links t1 Hall) in Hin. cbn [app] in Hin.
  apply Htouch, (rangeOrder_keys rangeOrder rangeOrder_perm) in Hin as [prs Hl].
  pose proof (Hmap id) as Hprs. rewrite Hl in Hprs. cbn in Hprs.
  assert (fetchedPRs (linkFetches id t1) <> []) as Hnil.
  { rewrite <- Hprs. now apply (Hne id). }
  split.
  - rewrite <- Hids. apply linkFetches_elem. intros Hno.
    now rewrite Hno in Hnil.
  - apply fetchedPRs_nonempty in Hnil as (extBugs & Hok & Hgh).
    exists extBugs. split; [|exact Hgh].
    rewrite linkFetches_app. apply elem_of_app. now left.
Qed.

(** X12: in every run of [VerifyBugs] at most one comment is created per
    bug, and every comment created is private. *)
Theorem one_private_comment_per_bug (bugs : list Z) (tagName : string)
    (w w' : W) (t : list event) (errs : list error) :
  VerifyBugs SemVer SemverParseTolerant SemverToMajorMinor rangeOrder
    bugs tagName w = (w', t, errs) ->
  NoDup (map CommentCreate_ID (creates t)) /\
  Forall (fun c => IsPrivate c = true) (creates t).
Proof.
  intros Hrun. unfold VerifyBugs in Hrun.
  destruct (SemverParseTolerant tagName) as [tagSemVer|err].
  2:{ injection Hrun as <- <- <-. split; constructor. }
  unfold bind in Hrun.
  destruct (getPRs bugs w) as [[w1 t1] [bzPRs errs1]] eqn:Hget.
  destruct (verifyLoop tagName _ (rangeOrder bzPRs) errs1 w1)
    as [[w2 t2] errs2] eqn:Hloop.
  injection Hrun as <- <- <-.
  apply getPRs_spec in Hget as (_ & Hall & _).
  apply only_link_fetches in Hall as (_ & _ & _ & _ & Hnc & _).
  apply verifyLoop_run_properties in Hloop as (_ & Hsub & Hpriv & _).
  rewrite creates_app, Hnc. cbn [app]. split; [|exact Hpriv].
  eapply sublist_NoDup; [|exact Hsub].
  apply (rangeOrder_keys rangeOrder rangeOrder_perm).
Qed.

(** X14: the status update closes the body. When the body issues the
    status update it is its last call, the outcome is success, and what
    came before is the bug fetch, the label fetches, the successful
    comment fetch and, unless the robot had posted the message already,
    the [CreateComment] call: the comment is sent before the status is
    changed. *)
Theorem update_is_the_last_call
    (tagName tagRelease : string) (bugID : Z) (extPRs : list pr)
    (errs : list error) (w w' : W) (t : list event) (errs' : list error)
    (v : verdict) (pre post : list event) (id : Z) (u : BugUpdate)
    (r : option error) :
  verifyBug tagName tagRelease bugID extPRs errs w = (w', t, (errs', v)) ->
  t = pre ++ EvUpdateBug id u r :: post ->
  post = [] /\
  exists bug message comments created,
    v = Decided true message /\
    pre = EvGetBug bugID (Ok bug)
            :: labelCalls (labelFetches t)
            ++ EvGetComments bugID (Ok comments)
            :: (if alreadyCommented message comments then []
                else [EvCreateComment (privateComment bugID message) created]).
Proof.
  intros Hrun Heq.
  apply verifyBug_shape in Hrun
    as [(fetched & _ & -> & _)
       |(bug & fetches & fc & cr & up & Hv & Ht & _)].
  { now apply no_update_split in Heq. }
  cbn zeta in *. rewrite Ht in Heq.
  match type of Ht with
  | _ = decidedTrace _ _ _ ?s ?m _ _ _ =>
      destruct (decidedTrace_projections bugID bug fetches s m fc cr up)
        as (_ & Hl & _)
  end.
  cbn zeta in Hl. rewrite <- Ht in Hl. rewrite Hl.
  apply decidedTrace_update_split in Heq
    as (-> & Hs & _ & _ & comments & _ & ->).
  split; [reflexivity|]. rewrite Hs in Hv.
  eexists bug, _, comments, cr. split; [exact Hv | reflexivity].
Qed.

(** X15: every decision comes with a message and a comment fetch. When
    the body decides on a bug, the message starts with the line "Bugfix
    included in accepted release <tag>" followed by a further line, so it
    is never empty, and the comments of the bug are fetched exactly once:
    the test of line 127 never fails. *)
Theorem every_decision_has_a_message
    (tagName tagRelease : string) (bugID : Z) (extPRs : list pr)
    (errs : list error) (w w' : W) (t : list event) (errs' : list error)
    (success : bool) (message : string) :
  verifyBug tagName tagRelease bugID extPRs errs w
    = (w', t, (errs', Decided success message)) ->
  (exists rest,
      message = "Bugfix included in accepted release " +:+ tagName +:+ nl +:+ rest) /\
  message <> "" /\
  exists fetched, commentFetches t = [(bugID, fetched)].
Proof.
  intros Hrun.
  pose proof (verifyBug_summary _ _ _ _ _ _ _ _ _ _ Hrun)
    as (_ & _ & _ & bug & fetched & _ & _ & _ & Hc & _).
  apply verifyBug_shape in Hrun
    as [(? & [=] & _)|(bug' & fetches & fc & cr & up & [= _ ->] & _)].
  destruct (compose_opens tagName bug'
              (if String.eqb (Status bug') "ON_QA" then unapproved fetches else [])
              (if String.eqb (Status bug') "ON_QA" then labelErrs fetches else [notOnQA]))
    as [rest Hrest].
  split; [exists rest; rewrite Hrest; unfold baseLine; now rewrite append_assoc|].
  split; [|eauto].
  rewrite Hrest. discriminate.
Qed.

End RunProperties.

(** ** Further runs against the in-memory tracker *)

(** "4.14.z" splits into three pieces and joins back. *)
Lemma Split_Join_round_trip_witness :
  Split "4.14.z" "."%char = ["4"; "14"; "z"] /\
  Split (Join ["4"; "14"; "z"] "."%char) "."%char = ["4"; "14"; "z"].
Proof.
  destruct (Split_Join_round_trip "."%char) as (_ & Hsplit & _).
  split; [reflexivity|].
  apply Hsplit; [discriminate | repeat constructor].
Defined.

(** The target release "4.14.z" passes the gate of release "4.14". *)
Lemma SameRelease_iff_prefix_witness :
  targetReleaseGate "4.14" (Fake.bug1 "ON_QA" "4.14.z") = SameRelease.
Proof.
  apply (SameRelease_iff_prefix "4" "14" "4.14" "4.14.z" []
           (Fake.bug1 "ON_QA" "4.14.z") eq_refl eq_refl eq_refl eq_refl).
  split; [discriminate|]. right. exists "z". reflexivity.
Defined.

(** A target release without a dot leaves one error and nothing else. *)
Lemma gate_skips_the_bug_witness :
  let run := verifyBug "4.14.3" "4.14" 1 [Fake.pr5] [] Fake.malformedWorld in
  targetReleaseGate "4.14" (Fake.bug1 "ON_QA" "414")
    = MalformedTargetRelease "414" /\
  snd (fst run) = [EvGetBug 1 (Ok (Fake.bug1 "ON_QA" "414"))] /\
  snd (snd run) = Skipped /\
  fst (snd run) = [malformedErr (Fake.bug1 "ON_QA" "414") "414"].
Proof.
  intros run.
  destruct (gate_skips_the_bug "4.14.3" "4.14" 1 [Fake.pr5] []
              Fake.malformedWorld _ _ _ _ (Fake.bug1 "ON_QA" "414")
              (run_eta run) eq_refl)
    as (Ht & Hv & Herrs & _); [discriminate|].
  split; [reflexivity|]. auto.
Defined.

(** Bug 7 is unknown to the tracker. *)
Lemma failed_bug_fetch_is_recorded_witness :
  let run := verifyBug "4.14.3" "4.14" 7 [Fake.pr5] [] Fake.approvedWorld in
  snd (fst run) = [EvGetBug 7 (Err Fake.notFound)] /\
  fst (snd run) = [bugFetchErr 7 Fake.notFound].
Proof.
  intros run.
  destruct (failed_bug_fetch_is_recorded "4.14.3" "4.14" 7 [Fake.pr5] []
              Fake.approvedWorld _ _ _ _ Fake.notFound (run_eta run) eq_refl)
    as (Ht & _ & Herrs & _).
  auto.
Defined.

(** A NEW bug gets the comment with the one reason and no update. *)
Lemma other_status_is_a_policy_failure_witness :
  let run := verifyBug "4.14.3" "4.14" 1 [Fake.pr5] [] Fake.newStatusWorld in
  let message :=
    baseLine "4.14.3" +:+ preamble +:+ nl +:+ "- Bug is not in ON_QA status"
      +:+ closingLine +:+ " by Quinn" in
  snd (snd run) = Decided false message /\
  labelFetches (snd (fst run)) = [] /\
  updates (snd (fst run)) = [] /\
  creates (snd (fst run)) = [privateComment 1 message].
Proof.
  intros run message.
  destruct (other_status_is_a_policy_failure "4.14.3" "4.14" 1 [Fake.pr5] []
              Fake.newStatusWorld _ _ _ _ (Fake.bug1 "NEW" "4.14.0")
              (run_eta run) eq_refl eq_refl)
    as (Hv & Hl & Hu & _); [discriminate | discriminate |].
  split; [exact Hv|]. split; [exact Hl|]. split; [exact Hu | reflexivity].
Defined.

(** Four bugs: one link fetch fails with a timeout, one is denied, and the
    bug that has a pull request is unknown to the tracker: two errors. *)
Lemma one_error_per_failed_call_witness :
  let run := Fake.VerifyBugs [1%Z; 2%Z; 3%Z; 4%Z] "4.14.3" Fake.linksWorld in
  length (snd run) = 2 /\
  errorCount "4.14" (snd (fst run)) = 2.
Proof.
  intros run.
  destruct (one_error_per_failed_call Fake.SemVer Fake.SemverParseTolerant
              Fake.SemverToMajorMinor Fake.rangeOrder
              [1%Z; 2%Z; 3%Z; 4%Z] "4.14.3" _ Fake.linksWorld _ _ _
              eq_refl (run_eta1 run)) as [Hlen _].
  split; [|reflexivity]. etransitivity; [exact Hlen | reflexivity].
Defined.

(** The links of four bugs: only bug 1 gets an entry. *)
Lemma getPRs_entries_come_from_links_witness :
  let run := getPRs [1%Z; 2%Z; 3%Z; 4%Z] Fake.linksWorld in
  fst (snd run) !! 1%Z = Some [Fake.pr5] /\
  exists extBugs extBug,
    Ok extBugs ∈ linkFetches 1 (snd (fst run)) /\ extBug ∈ extBugs /\
    URL extBug = "https://github.com/" /\
    Fake.pr5 = {| org := Org extBug; repo := Repo extBug; prNum := Num extBug |}.
Proof.
  intros run.
  destruct (getPRs_entries_come_from_links [1%Z; 2%Z; 3%Z; 4%Z] Fake.linksWorld
              _ _ _ _ (run_eta run)) as [Hentries _].
  assert (Hl : fst (snd run) !! 1%Z = Some [Fake.pr5]) by reflexivity.
  split; [exact Hl|].
  destruct (Hentries 1%Z [Fake.pr5] Hl) as (_ & _ & Hprs).
  apply Hprs. left.
Defined.

(** The update of the approved bug is backed by the fetch of its label. *)
Lemma verified_only_with_approved_pull_requests_witness :
  let run := Fake.VerifyBugs [1%Z] "4.14.3" Fake.approvedWorld in
  let t := snd (fst run) in
  t = firstn 5 t ++ EvUpdateBug 1 verifiedUpdate None :: [] /\
  exists before bugID bug since,
    firstn 5 t = before ++ EvGetBug bugID (Ok bug) :: since /\
    labelFetches since <> [].
Proof.
  intros run t.
  assert (Ht : t = firstn 5 t ++ EvUpdateBug 1 verifiedUpdate None :: [])
    by reflexivity.
  split; [exact Ht|].
  destruct (verified_only_with_approved_pull_requests Fake.SemVer
              Fake.SemverParseTolerant Fake.SemverToMajorMinor Fake.rangeOrder
              Fake_rangeOrder_perm [1%Z] "4.14.3" Fake.approvedWorld _ _ _
              (run_eta1 run) _ _ _ _ _ Ht)
    as (before & bugID & bug & since & Hpre & _ & _ & _ & Hne & _).
  exists before, bugID, bug, since. auto.
Defined.

(** Bug 1 is the only bug the run touches, and it has a GitHub link. *)
Lemma only_linked_bugs_are_touched_witness :
  let run := Fake.VerifyBugs [1%Z; 2%Z] "4.14.3" Fake.approvedWorld in
  touchedBugs (snd (fst run)) = [1%Z; 1%Z; 1%Z] /\
  exists extBugs,
    Ok extBugs ∈ linkFetches 1 (snd (fst run)) /\ githubPRs extBugs <> [].
Proof.
  intros run.
  assert (Ht : touchedBugs (snd (fst run)) = [1%Z; 1%Z; 1%Z]) by reflexivity.
  split; [exact Ht|].
  apply (only_linked_bugs_are_touched Fake.SemVer Fake.SemverParseTolerant
           Fake.SemverToMajorMinor Fake.rangeOrder Fake_rangeOrder_perm
           [1%Z; 2%Z] "4.14.3" Fake.approvedWorld _ _ _ (run_eta1 run) 1%Z).
  rewrite Ht. left.
Defined.

(** The run on the approved bug creates one private comment. *)
Lemma one_private_comment_per_bug_witness :
  let run := Fake.VerifyBugs [1%Z; 1%Z] "4.14.3" Fake.approvedWorld in
  map CommentCreate_ID (creates (snd (fst run))) = [1%Z] /\
  NoDup (map CommentCreate_ID (creates (snd (fst run)))) /\
  Forall (fun c => IsPrivate c = true) (creates (snd (fst run))).
Proof.
  intros run. split; [reflexivity|].
  exact (one_private_comment_per_bug Fake.SemVer Fake.SemverParseTolerant
           Fake.SemverToMajorMinor Fake.rangeOrder Fake_rangeOrder_perm
           [1%Z; 1%Z] "4.14.3" Fake.approvedWorld _ _ _ (run_eta1 run)).
Defined.

(** The update of the approved bug is the last of the six calls. *)
Lemma update_is_the_last_call_witness :
  let run := verifyBug "4.14.3" "4.14" 1 [Fake.pr5] [] Fake.approvedWorld in
  let t := snd (fst run) in
  t = firstn 4 t ++ EvUpdateBug 1 verifiedUpdate None :: [] /\
  exists bug message comments created,
    snd (snd run) = Decided true message /\
    firstn 4 t =
      EvGetBug 1 (Ok bug)
        :: labelCalls (labelFetches t)
        ++ EvGetComments 1 (Ok comments)
        :: (if alreadyCommented message comments then []
            else [EvCreateComment (privateComment 1 message) created]).
Proof.
  intros run t.
  assert (Ht : t = firstn 4 t ++ EvUpdateBug 1 verifiedUpdate None :: [])
    by reflexivity.
  split; [exact Ht|].
  destruct (update_is_the_last_call "4.14.3" "4.14" 1 [Fake.pr5] []
              Fake.approvedWorld _ _ _ _ _ _ _ _ _ (run_eta run) Ht)
    as [_ Hpre].
  exact Hpre.
Defined.

(** The message for the bug with an unapproved pull request. *)
Lemma every_decision_has_a_message_witness :
  let run := verifyBug "4.14.3" "4.14" 1 [Fake.pr5; Fake.pr6] [] Fake.mixedWorld in
  exists success message rest,
    snd (snd run) = Decided success message /\
    message = "Bugfix included in accepted release " +:+ "4.14.3" +:+ nl +:+ rest /\
    commentFetches (snd (fst run)) = [(1%Z, Ok [])].
Proof.
  intros run.
  assert (Hrun : verifyBug "4.14.3" "4.14" 1 [Fake.pr5; Fake.pr6] [] Fake.mixedWorld
                 = (fst (fst run), snd (fst run),
                    (fst (snd run),
                     Decided false
                       (baseLine "4.14.3" +:+ preamble +:+ prLine Fake.pr6
                          +:+ closingLine +:+ " by Quinn"))))
    by reflexivity.
  destruct (every_decision_has_a_message "4.14.3" "4.14" 1 [Fake.pr5; Fake.pr6] []
              Fake.mixedWorld _ _ _ _ _ Hrun) as ([rest Hrest] & _ & _).
  eexists false, _, rest. split; [reflexivity|]. split; [exact Hrest | reflexivity].
Defined.

(** "414" holds no dot: the gate rejects it as malformed. *)
Lemma targetReleaseGate_classification_witness :
  targetReleaseGate "4.14" (Fake.bug1 "ON_QA" "414") = MalformedTargetRelease "414" /\
  targetReleaseGate "4.14" (Fake.bug1 "ON_QA" "---") = NoTargetRelease.
Proof.
  split.
  - apply (targetReleaseGate_classification "4.14" (Fake.bug1 "ON_QA" "414")).
    split; [exists []; reflexivity|]. split; [discriminate | reflexivity].
  - apply (targetReleaseGate_classification "4.14" (Fake.bug1 "ON_QA" "---")).
    right. exists []. reflexivity.
Defined.

(** Nothing is asked of the tracker for the empty list. *)
Lemma empty_input_makes_no_call_witness :
  Fake.VerifyBugs [] "4.14.3" Fake.approvedWorld = (Fake.approvedWorld, [], []) /\
  length (snd (Fake.VerifyBugs [] "not-a-semver" Fake.approvedWorld)) = 1.
Proof.
  split.
  - exact (empty_input_makes_no_call Fake.SemVer Fake.SemverParseTolerant
             Fake.SemverToMajorMinor Fake.rangeOrder Fake_rangeOrder_perm
             "4.14.3" Fake.approvedWorld).
  - rewrite (empty_input_makes_no_call Fake.SemVer Fake.SemverParseTolerant
               Fake.SemverToMajorMinor Fake.rangeOrder Fake_rangeOrder_perm
               "not-a-semver" Fake.approvedWorld).
    reflexivity.
Defined.
